(** * sort_quizzes.py: a shallow embedding and its properties

    The script walks a workspace directory, recognises semester folders
    ([Quizzes-Fall-2021], [Quizzes-Fall2024], ...), finds the quiz folders
    inside each, locates the three PDF parts of every quiz and merges them
    into [Quizzes/Quiz N/quiz_N_year_season.pdf].

    Modelling choices.
    - Names are [string]s of 8-bit characters with the ASCII reading of
      [\w], [\d], [str.lower] and [re.IGNORECASE]; code points above 127
      are outside the model.
    - The file system is a tree whose directories are ordered association
      lists; [iterdir] yields the entries in list order and a newly created
      entry goes to the end of its directory.  Names are compared exactly
      (a case-sensitive file system).
    - [re.match] is a backtracking matcher over the token list of each
      pattern of the source (greedy repetition, capture groups, [$]).
    - [sorted] and [list.sort] are stable; they are an insertion sort that
      keeps equal keys in their order.
    - [PyPDF2.PdfMerger] is an external library: a merge object reads the
      pages of each input when it is appended and keeps one input stream
      per appended file until [close] is called.
    - Python exceptions are values of [exn]; effectful code lives in the
      monad [M], whose state survives a raised exception.  The exceptions
      modelled are the ones the tree decides: a missing file, a file where
      a directory is needed, a directory where a file is needed, a file
      that is no PDF, a string that is no number. *)

From Stdlib Require Import List String Ascii Bool Arith NArith Lia.
From Stdlib Require Import Sorted Permutation DecimalString.
Import ListNotations.
Local Open Scope string_scope.
Local Open Scope list_scope.
Local Open Scope nat_scope.

Infix "+++" := String.append (at level 60, right associativity).

(** ** Characters and strings *)

Module Str.

Definition is_digit (c : ascii) : bool :=
  let n := nat_of_ascii c in (48 <=? n) && (n <=? 57).

Definition is_upper (c : ascii) : bool :=
  let n := nat_of_ascii c in (65 <=? n) && (n <=? 90).

Definition is_lower (c : ascii) : bool :=
  let n := nat_of_ascii c in (97 <=? n) && (n <=? 122).

(** [\w] on ASCII: letters, digits and the underscore. *)
Definition is_word (c : ascii) : bool :=
  is_digit c || is_upper c || is_lower c || (nat_of_ascii c =? 95).

Definition lower_char (c : ascii) : ascii :=
  if is_upper c then ascii_of_nat (nat_of_ascii c + 32) else c.

Definition upper_char (c : ascii) : ascii :=
  if is_lower c then ascii_of_nat (nat_of_ascii c - 32) else c.

(** [str.lower] *)
Fixpoint lower (s : string) : string :=
  match s with
  | EmptyString => EmptyString
  | String c s' => String (lower_char c) (lower s')
  end.

(** [str.capitalize] *)
Definition capitalize (s : string) : string :=
  match s with
  | EmptyString => EmptyString
  | String c s' => String (upper_char c) (lower s')
  end.

Fixpoint all_chars (p : ascii -> bool) (s : string) : bool :=
  match s with
  | EmptyString => true
  | String c s' => p c && all_chars p s'
  end.

(** [s.endswith(suf)] *)
Definition ends_with (suf s : string) : bool :=
  let n := String.length s in
  let m := String.length suf in
  (m <=? n) && String.eqb (substring (n - m) m s) suf.

(** Index of the last occurrence of [c], as [str.rfind]. *)
Fixpoint rfind_from (c : ascii) (s : string) (i : nat) (acc : option nat)
  : option nat :=
  match s with
  | EmptyString => acc
  | String d s' =>
      rfind_from c s' (S i) (if Ascii.eqb d c then Some i else acc)
  end.

Definition rfind (c : ascii) (s : string) : option nat := rfind_from c s 0 None.

(** [str(n)] for a non-negative integer. *)
Definition of_N (n : N) : string := NilZero.string_of_uint (N.to_uint n).
Definition of_nat (n : nat) : string := NilZero.string_of_uint (Nat.to_uint n).

Definition digit_val (c : ascii) : N := N.of_nat (nat_of_ascii c - 48).

Fixpoint digits_val (acc : N) (s : string) : N :=
  match s with
  | EmptyString => acc
  | String c s' => digits_val (acc * 10 + digit_val c) s'
  end.

(** [s * n] for a one-character string. *)
Fixpoint repeat_char (c : ascii) (n : nat) : string :=
  match n with
  | O => EmptyString
  | S n' => String c (repeat_char c n')
  end.

End Str.

(** ** Regular expressions: the fragment the script uses *)

Module Re.

Inductive cclass :=
| CLit (c : ascii)            (* a literal character *)
| CWord                       (* \w *)
| CDigit                      (* \d *)
| CSet (cs : list ascii).     (* [...] *)

Inductive tok :=
| TChar (cc : cclass)
| TRep (cc : cclass) (lo : nat) (hi : option nat)  (* greedy cc{lo,hi} *)
| TOpen                                            (* ( *)
| TClose                                           (* ) *)
| TEnd.                                            (* $ *)

(** Captures: the groups already closed, in order, and the text of the
    group that is still open. *)
Record mstate := MState { closed : list string; opened : option string }.

Definition init : mstate := MState [] None.

Definition consume (c : ascii) (st : mstate) : mstate :=
  match opened st with
  | Some g => MState (closed st) (Some (g +++ String c EmptyString))
  | None => st
  end.

Definition open_group (st : mstate) : mstate := MState (closed st) (Some "").

Definition close_group (st : mstate) : mstate :=
  match opened st with
  | Some g => MState (closed st ++ [g]) None
  | None => st
  end.

Definition accepts (ignorecase : bool) (cc : cclass) (c : ascii) : bool :=
  match cc with
  | CLit x =>
      if ignorecase then Ascii.eqb (Str.lower_char x) (Str.lower_char c)
      else Ascii.eqb x c
  | CWord => Str.is_word c
  | CDigit => Str.is_digit c
  | CSet cs =>
      if ignorecase
      then existsb (fun x => Ascii.eqb (Str.lower_char x) (Str.lower_char c)) cs
      else existsb (fun x => Ascii.eqb x c) cs
  end.

Definition below (hi : option nat) (n : nat) : bool :=
  match hi with
  | Some h => n <? h
  | None => true
  end.

(** [$] without [re.MULTILINE]: the end of the string, or just before a
    newline that ends the string. *)
Definition at_end (s : string) : bool :=
  match s with
  | EmptyString => true
  | String c EmptyString => Ascii.eqb c "010"%char
  | _ => false
  end.

(** Greedy repetition with backtracking: take one more character while the
    class accepts it, and give characters back one at a time when the rest
    of the pattern ([k]) fails. *)
Fixpoint rep (k : string -> mstate -> option (list string))
    (ignorecase : bool) (cc : cclass) (lo : nat) (hi : option nat)
    (n : nat) (s : string) (st : mstate) {struct s} : option (list string) :=
  let stop := if lo <=? n then k s st else None in
  match s with
  | String c s' =>
      if accepts ignorecase cc c && below hi n then
        match rep k ignorecase cc lo hi (S n) s' (consume c st) with
        | Some r => Some r
        | None => stop
        end
      else stop
  | EmptyString => stop
  end.

Fixpoint exec (ignorecase : bool) (ts : list tok) (s : string) (st : mstate)
    {struct ts} : option (list string) :=
  match ts with
  | [] => Some (closed st)
  | TChar cc :: ts' =>
      match s with
      | String c s' =>
          if accepts ignorecase cc c then exec ignorecase ts' s' (consume c st)
          else None
      | EmptyString => None
      end
  | TRep cc lo hi :: ts' => rep (exec ignorecase ts') ignorecase cc lo hi 0 s st
  | TOpen :: ts' => exec ignorecase ts' s (open_group st)
  | TClose :: ts' => exec ignorecase ts' s (close_group st)
  | TEnd :: ts' => if at_end s then exec ignorecase ts' s st else None
  end.

(** [re.match(pattern, s, flags)]: anchored at the start of [s], not at its
    end; the result is [match.groups()]. *)
Definition re_match (ignorecase : bool) (pattern : list tok) (s : string)
  : option (list string) :=
  exec ignorecase pattern s init.

(** The tokens of a run of literal characters. *)
Fixpoint lits (s : string) : list tok :=
  match s with
  | EmptyString => []
  | String c s' => TChar (CLit c) :: lits s'
  end.

Definition group (ts : list tok) : list tok := TOpen :: ts ++ [TClose].

End Re.

(** ** Semester folders *)

(** Quizzes-(\w+)-(\d{4}) *)
Definition PATTERN_HYPHEN : list Re.tok :=
  Re.lits "Quizzes-" ++ Re.group [Re.TRep Re.CWord 1 None]
    ++ Re.lits "-" ++ Re.group [Re.TRep Re.CDigit 4 (Some 4)].

(** Quizzes-(\w+)(\d{4}) *)
Definition PATTERN_NO_HYPHEN : list Re.tok :=
  Re.lits "Quizzes-" ++ Re.group [Re.TRep Re.CWord 1 None]
    ++ Re.group [Re.TRep Re.CDigit 4 (Some 4)].

Definition SEMESTER_PATTERNS : list (list Re.tok) :=
  [PATTERN_HYPHEN; PATTERN_NO_HYPHEN].

(** The loop of [parse_semester_folder] over the remaining patterns. *)
Fixpoint parse_semester_loop (patterns : list (list Re.tok))
    (folder_name : string) : option (string * string) :=
  match patterns with
  | [] => None
  | pattern :: rest =>
      match Re.re_match false pattern folder_name with
      | Some groups =>
          (* season, year = match.groups() *)
          let season := nth 0 groups "" in
          let year := nth 1 groups "" in
          Some (Str.lower season, year)
      | None => parse_semester_loop rest folder_name
      end
  end.

Definition parse_semester_folder (folder_name : string)
  : option (string * string) :=
  parse_semester_loop SEMESTER_PATTERNS folder_name.

(** ** The file system *)

(** A path is the list of its components below [WORKSPACE_DIR]. *)
Definition path := list string.

Definition page := nat.

Inductive content :=
| Pdf (pages : list page)     (* a well-formed PDF and its pages *)
| Data (bytes : string).      (* anything else *)

#[local] Set Warnings "-register-all".
Inductive node :=
| File (c : content)
| Dir (entries : list (string * node)).

Inductive errno := ENOENT | ENOTDIR | EISDIR | EEXIST.

Module FS.

Fixpoint assoc (x : string) (es : list (string * node)) : option node :=
  match es with
  | [] => None
  | (y, v) :: es' => if String.eqb y x then Some v else assoc x es'
  end.

(** Replace the entry named [x] where it stands, or add it at the end. *)
Fixpoint set_entry (x : string) (v : node) (es : list (string * node))
  : list (string * node) :=
  match es with
  | [] => [(x, v)]
  | (y, u) :: es' =>
      if String.eqb y x then (y, v) :: es' else (y, u) :: set_entry x v es'
  end.

Fixpoint lookup (t : node) (p : path) : option node :=
  match p with
  | [] => Some t
  | x :: p' =>
      match t with
      | Dir es =>
          match assoc x es with
          | Some c => lookup c p'
          | None => None
          end
      | File _ => None
      end
  end.

(** Walk down [p] and apply [f] to what is found there ([None] when nothing
    is); with [parents] the missing directories on the way are created. *)
Fixpoint update (parents : bool) (f : option node -> errno + node)
    (t : option node) (p : path) : errno + node :=
  match p with
  | [] => f t
  | x :: p' =>
      match t with
      | Some (File _) => inl ENOTDIR
      | Some (Dir es) =>
          match update parents f (assoc x es) p' with
          | inr c => inr (Dir (set_entry x c es))
          | inl e => inl e
          end
      | None =>
          if parents then
            match update parents f None p' with
            | inr c => inr (Dir [(x, c)])
            | inl e => inl e
            end
          else inl ENOENT
      end
  end.

(** [Path.mkdir(parents=True, exist_ok=True)] *)
Definition mkdir_at (o : option node) : errno + node :=
  match o with
  | None => inr (Dir [])
  | Some (Dir es) => inr (Dir es)
  | Some (File _) => inl EEXIST
  end.

Definition mkdir_parents (t : node) (p : path) : errno + node :=
  update true mkdir_at (Some t) p.

(** [open(p, "wb")] followed by writing [c]: the file is created or
    truncated; its directory has to exist. *)
Definition write_at (c : content) (o : option node) : errno + node :=
  match o with
  | Some (Dir _) => inl EISDIR
  | _ => inr (File c)
  end.

Definition write_file (t : node) (p : path) (c : content) : errno + node :=
  update false (write_at c) (Some t) p.

Definition is_dir (t : node) (p : path) : bool :=
  match lookup t p with
  | Some (Dir _) => true
  | _ => false
  end.

Definition exists_ (t : node) (p : path) : bool :=
  match lookup t p with
  | Some _ => true
  | None => false
  end.

(** [Path.name] *)
Definition name (p : path) : string := last p "".

(** [Path.parent] *)
Definition parent (p : path) : path := removelast p.

(** [Path.suffix] *)
Definition suffix (p : path) : string :=
  let nm := name p in
  match Str.rfind "."%char nm with
  | Some i =>
      if (0 <? i) && (i <? String.length nm - 1)
      then substring i (String.length nm - i) nm
      else ""
  | None => ""
  end.

(** [lookup] below an optional node. *)
Definition lookup_opt (o : option node) (p : path) : option node :=
  match o with
  | Some t => lookup t p
  | None => None
  end.

(** Kinds: what [stat] tells apart. *)
Inductive kind := KNone | KFile | KDir.

Definition kind_of (o : option node) : kind :=
  match o with
  | None => KNone
  | Some (File _) => KFile
  | Some (Dir _) => KDir
  end.

Definition kind_at (t : node) (p : path) : kind := kind_of (lookup t p).

(** [p] is an initial segment of [q]. *)
Fixpoint is_prefix (p q : path) : bool :=
  match p, q with
  | [], _ => true
  | x :: p', y :: q' => String.eqb x y && is_prefix p' q'
  | _ :: _, [] => false
  end.

(** [f] does not reach below the place it is applied to. *)
Definition shallow (f : option node -> errno + node) : Prop :=
  forall o v y r, f o = inr v -> lookup v (y :: r) = lookup_opt o (y :: r).

End FS.

(** ** Exceptions, the world and the monad of the script *)

Inductive exn :=
| OSError (e : errno) (p : path)
| PdfReadError (p : path)
| ValueError (s : string).

Inductive outcome (A : Type) :=
| Returned (a : A)
| Raised (e : exn).
Arguments Returned {A} a.
Arguments Raised {A} e.

(** A merge object of PyPDF2: the input streams it holds and the pages
    collected so far. *)
Record PdfMerger := mkMerger { inputs : list path; pages : list page }.

(** The state a run acts on: the tree below the workspace, the merge
    objects created so far (a reference to one is its index) and the lines
    printed. *)
Record world := World {
  fs : node;
  mergers : list PdfMerger;
  stdout : list string
}.

Definition M (A : Type) := world -> outcome A * world.

Definition ret {A} (a : A) : M A := fun w => (Returned a, w).

Definition bind {A B} (m : M A) (k : A -> M B) : M B :=
  fun w =>
    match m w with
    | (Returned a, w') => k a w'
    | (Raised e, w') => (Raised e, w')
    end.

Definition raise {A} (e : exn) : M A := fun w => (Raised e, w).

(** [try: body  except Exception as e: handler e] *)
Definition try_except {A} (body : M A) (handler : exn -> M A) : M A :=
  fun w =>
    match body w with
    | (Returned a, w') => (Returned a, w')
    | (Raised e, w') => handler e w'
    end.

Notation "x <- c1 ;; c2" := (bind c1 (fun x => c2))
  (at level 100, c1 at next level, right associativity).
Notation "c1 ;; c2" := (bind c1 (fun _ => c2))
  (at level 100, right associativity).

Fixpoint for_each {A} (xs : list A) (body : A -> M unit) : M unit :=
  match xs with
  | [] => ret tt
  | x :: xs' => body x ;; for_each xs' body
  end.

(** Streams held by merge objects that were never closed. *)
Definition open_streams (w : world) : list path :=
  List.concat (map inputs (mergers w)).

Fixpoint update_nth {A} (i : nat) (f : A -> A) (l : list A) : list A :=
  match l, i with
  | [], _ => []
  | x :: l', O => f x :: l'
  | x :: l', S i' => x :: update_nth i' f l'
  end.

Section Script.

(** [WORKSPACE_DIR = Path(__file__).parent], as [str] prints it. *)
Variable WORKSPACE_DIR : string.

Definition OUTPUT_DIR : path := ["Quizzes"].

(** [str(p)] *)
Definition str_path (p : path) : string :=
  String.concat "/" (WORKSPACE_DIR :: p).

Definition str_errno (e : errno) : string :=
  match e with
  | ENOENT => "[Errno 2] No such file or directory"
  | ENOTDIR => "[Errno 20] Not a directory"
  | EISDIR => "[Errno 21] Is a directory"
  | EEXIST => "[Errno 17] File exists"
  end.

(** [str(e)] *)
Definition str_exn (e : exn) : string :=
  match e with
  | OSError en p => str_errno en +++ ": '" +++ str_path p +++ "'"
  | PdfReadError p => "Cannot read PDF: " +++ str_path p
  | ValueError s => "invalid literal for int() with base 10: '" +++ s +++ "'"
  end.

(** *** Library calls *)

Definition print (line : string) : M unit :=
  fun w => (Returned tt, World (fs w) (mergers w) (stdout w ++ [line])).

Definition iterdir (p : path) : M (list path) :=
  fun w =>
    match FS.lookup (fs w) p with
    | Some (Dir es) => (Returned (map (fun e => p ++ [fst e]) es), w)
    | Some (File _) => (Raised (OSError ENOTDIR p), w)
    | None => (Raised (OSError ENOENT p), w)
    end.

Definition is_dir (p : path) : M bool :=
  fun w => (Returned (FS.is_dir (fs w) p), w).

Definition exists_ (p : path) : M bool :=
  fun w => (Returned (FS.exists_ (fs w) p), w).

(** [int(s)] on what the script passes it: a run of decimal digits. *)
Definition int (s : string) : M N :=
  if negb (String.eqb s "") && Str.all_chars Str.is_digit s
  then ret (Str.digits_val 0%N s)
  else raise (ValueError s).

Definition mkdir_parents (p : path) : M unit :=
  fun w =>
    match FS.mkdir_parents (fs w) p with
    | inr t => (Returned tt, World t (mergers w) (stdout w))
    | inl e => (Raised (OSError e p), w)
    end.

(** [PdfMerger()] *)
Definition PdfMerger_new : M nat :=
  fun w =>
    (Returned (List.length (mergers w)),
     World (fs w) (mergers w ++ [mkMerger [] []]) (stdout w)).

(** [merger.append(str(p))]: the file is read and parsed; its stream and
    pages are kept by the merge object. *)
Definition PdfMerger_append (merger : nat) (p : path) : M unit :=
  fun w =>
    match FS.lookup (fs w) p with
    | None => (Raised (OSError ENOENT p), w)
    | Some (Dir _) => (Raised (OSError EISDIR p), w)
    | Some (File (Data _)) => (Raised (PdfReadError p), w)
    | Some (File (Pdf pgs)) =>
        (Returned tt,
         World (fs w)
           (update_nth merger
              (fun m => mkMerger (inputs m ++ [p]) (pages m ++ pgs))
              (mergers w))
           (stdout w))
    end.

(** [merger.write(str(p))] *)
Definition PdfMerger_write (merger : nat) (p : path) : M unit :=
  fun w =>
    let pgs := pages (nth merger (mergers w) (mkMerger [] [])) in
    match FS.write_file (fs w) p (Pdf pgs) with
    | inr t => (Returned tt, World t (mergers w) (stdout w))
    | inl e => (Raised (OSError e p), w)
    end.

(** [merger.close()]: the streams are closed and the pages dropped. *)
Definition PdfMerger_close (merger : nat) : M unit :=
  fun w =>
    (Returned tt,
     World (fs w) (update_nth merger (fun _ => mkMerger [] []) (mergers w))
       (stdout w)).

(** *** Sorting: [sorted] and [list.sort] are stable *)

Fixpoint insert_by {A} (le : A -> A -> bool) (x : A) (l : list A) : list A :=
  match l with
  | [] => [x]
  | y :: l' => if le x y then x :: l else y :: insert_by le x l'
  end.

Fixpoint sort_by {A} (le : A -> A -> bool) (l : list A) : list A :=
  match l with
  | [] => []
  | x :: l' => insert_by le x (sort_by le l')
  end.

(** *** find_quiz_folders *)

(** Quiz(\d+) *)
Definition QUIZ_PATTERN : list Re.tok :=
  Re.lits "Quiz" ++ Re.group [Re.TRep Re.CDigit 1 None].

(** Q(\d+)$ *)
Definition Q_PATTERN : list Re.tok :=
  Re.lits "Q" ++ Re.group [Re.TRep Re.CDigit 1 None] ++ [Re.TEnd].

(** [int(match.group(1))] *)
Definition int_group1 (groups : list string) : M N :=
  int (nth 0 groups "").

Fixpoint find_quiz_folders_loop (items : list path)
    (quiz_folders : list (N * path)) : M (list (N * path)) :=
  match items with
  | [] => ret quiz_folders
  | item :: rest =>
      d <- is_dir item ;;
      if negb d then find_quiz_folders_loop rest quiz_folders
      else
        match Re.re_match true QUIZ_PATTERN (FS.name item) with
        | Some groups =>
            n <- int_group1 groups ;;
            find_quiz_folders_loop rest (quiz_folders ++ [(n, item)])
        | None =>
            match Re.re_match true Q_PATTERN (FS.name item) with
            | Some groups =>
                n <- int_group1 groups ;;
                find_quiz_folders_loop rest (quiz_folders ++ [(n, item)])
            | None => find_quiz_folders_loop rest quiz_folders
            end
        end
  end.

Definition quiz_le (a b : N * path) : bool := (fst a <=? fst b)%N.

Definition find_quiz_folders (semester_path : path) : M (list (N * path)) :=
  items <- iterdir semester_path ;;
  quiz_folders <- find_quiz_folders_loop items [] ;;
  ret (sort_by quiz_le quiz_folders).

(** *** find_quiz_parts *)

(** The loop over the exact names. *)
Fixpoint find_exact (quiz_folder : path) (patterns : list string)
  : M (option path) :=
  match patterns with
  | [] => ret None
  | pattern :: rest =>
      let pdf_path := quiz_folder ++ [pattern] in
      e <- exists_ pdf_path ;;
      if e then ret (Some pdf_path) else find_exact quiz_folder rest
  end.

(** Quiz{quiz_num}[.,]{part_num}\.pdf *)
Definition LOOSE_PATTERN (quiz_num part_num : N) : list Re.tok :=
  Re.lits ("Quiz" +++ Str.of_N quiz_num)
    ++ [Re.TChar (Re.CSet ["."%char; ","%char])]
    ++ Re.lits (Str.of_N part_num)
    ++ Re.lits ".pdf".

Definition loose_match (quiz_num part_num : N) (file : path) : bool :=
  String.eqb (Str.lower (FS.suffix file)) ".pdf"
  && match Re.re_match true (LOOSE_PATTERN quiz_num part_num) (FS.name file) with
     | Some _ => true
     | None => false
     end.

(** The fallback loop over the folder. *)
Fixpoint find_loose (quiz_num part_num : N) (files : list path)
  : option path :=
  match files with
  | [] => None
  | file :: rest =>
      if loose_match quiz_num part_num file then Some file
      else find_loose quiz_num part_num rest
  end.

Definition warning (part_num : N) (quiz_folder : path) : string :=
  "  Warning: Could not find part " +++ Str.of_N part_num +++ " in "
    +++ str_path quiz_folder.

(** One round of the loop over [part_num]. *)
Definition find_part (quiz_folder : path) (quiz_num part_num : N)
    (parts : list path) : M (list path) :=
  let patterns :=
    [ "Quiz" +++ Str.of_N quiz_num +++ "." +++ Str.of_N part_num +++ ".pdf";
      "Quiz" +++ Str.of_N quiz_num +++ "," +++ Str.of_N part_num +++ ".pdf" ] in
  r <- find_exact quiz_folder patterns ;;
  match r with
  | Some pdf_path => ret (parts ++ [pdf_path])
  | None =>
      files <- iterdir quiz_folder ;;
      match find_loose quiz_num part_num files with
      | Some file => ret (parts ++ [file])
      | None => print (warning part_num quiz_folder) ;; ret parts
      end
  end.

Fixpoint find_parts_loop (quiz_folder : path) (quiz_num : N)
    (part_nums : list N) (parts : list path) : M (list path) :=
  match part_nums with
  | [] => ret parts
  | part_num :: rest =>
      parts' <- find_part quiz_folder quiz_num part_num parts ;;
      find_parts_loop quiz_folder quiz_num rest parts'
  end.

Definition find_quiz_parts (quiz_folder : path) (quiz_num : N)
  : M (list path) :=
  find_parts_loop quiz_folder quiz_num [1; 2; 3]%N [].

(** *** merge_pdfs *)

Definition merge_pdfs (pdf_paths : list path) (output_path : path) : M bool :=
  match pdf_paths with
  | [] => ret false
  | _ :: _ =>
      try_except
        (merger <- PdfMerger_new ;;
         for_each pdf_paths (fun pdf_path => PdfMerger_append merger pdf_path) ;;
         mkdir_parents (FS.parent output_path) ;;
         PdfMerger_write merger output_path ;;
         PdfMerger_close merger ;;
         ret true)
        (fun e =>
           print ("  Error merging PDFs: " +++ str_exn e) ;;
           ret false)
  end.

(** *** main *)

Definition nl : string := String "010"%char "".

Definition rule : string := Str.repeat_char "="%char 60.

Definition semester := (string * string * path)%type.

Fixpoint scan_semesters (items : list path) (semester_folders : list semester)
  : M (list semester) :=
  match items with
  | [] => ret semester_folders
  | item :: rest =>
      d <- is_dir item ;;
      if d then
        match parse_semester_folder (FS.name item) with
        | Some (season, year) =>
            scan_semesters rest (semester_folders ++ [(season, year, item)])
        | None => scan_semesters rest semester_folders
        end
      else scan_semesters rest semester_folders
  end.

(** [season_order.get(season, 3)] *)
Definition season_order (season : string) : nat :=
  if String.eqb season "winter" then 0
  else if String.eqb season "spring" then 1
  else if String.eqb season "fall" then 2
  else 3.

(** The order of the keys [(x[1], season_order.get(x[0], 3))]. *)
Definition semester_le (a b : semester) : bool :=
  let '(season1, year1, _) := a in
  let '(season2, year2, _) := b in
  match String.compare year1 year2 with
  | Lt => true
  | Eq => season_order season1 <=? season_order season2
  | Gt => false
  end.

Definition output_filename (quiz_num : N) (year season : string) : string :=
  "quiz_" +++ Str.of_N quiz_num +++ "_" +++ year +++ "_" +++ season +++ ".pdf".

Definition output_path (quiz_num : N) (year season : string) : path :=
  (OUTPUT_DIR ++ ["Quiz " +++ Str.of_N quiz_num])
    ++ [output_filename quiz_num year season].

(** The body of the loop over the quiz folders of a semester. *)
Definition process_quiz (season year : string) (quiz_num : N)
    (quiz_folder : path) (counts : nat * nat) : M (nat * nat) :=
  let '(total_merged, total_errors) := counts in
  parts <- find_quiz_parts quiz_folder quiz_num ;;
  if negb (List.length parts =? 3) then
    print ("  Quiz " +++ Str.of_N quiz_num +++ ": Found "
             +++ Str.of_nat (List.length parts) +++ "/3 parts - skipping") ;;
    ret (total_merged, total_errors + 1)
  else
    ok <- merge_pdfs parts (output_path quiz_num year season) ;;
    if ok then
      print ("  Quiz " +++ Str.of_N quiz_num +++ ": Merged -> "
               +++ output_filename quiz_num year season) ;;
      ret (total_merged + 1, total_errors)
    else
      print ("  Quiz " +++ Str.of_N quiz_num +++ ": Failed to merge") ;;
      ret (total_merged, total_errors + 1).

Fixpoint process_quizzes (season year : string)
    (quiz_folders : list (N * path)) (counts : nat * nat) : M (nat * nat) :=
  match quiz_folders with
  | [] => ret counts
  | (quiz_num, quiz_folder) :: rest =>
      counts' <- process_quiz season year quiz_num quiz_folder counts ;;
      process_quizzes season year rest counts'
  end.

Fixpoint process_semesters (semester_folders : list semester)
    (counts : nat * nat) : M (nat * nat) :=
  match semester_folders with
  | [] => ret counts
  | (season, year, semester_path) :: rest =>
      print (nl +++ "Processing " +++ FS.name semester_path +++ "...") ;;
      quiz_folders <- find_quiz_folders semester_path ;;
      counts' <- process_quizzes season year quiz_folders counts ;;
      process_semesters rest counts'
  end.

(** [folder.glob("*.pdf")] *)
Definition glob_pdf (folder : path) : M (list path) :=
  items <- iterdir folder ;;
  ret (filter (fun item => Str.ends_with ".pdf" (FS.name item)) items).

Definition path_le (a b : path) : bool := String.leb (FS.name a) (FS.name b).

Definition summary_folder (folder : path) : M unit :=
  d <- is_dir folder ;;
  if d then
    files <- glob_pdf folder ;;
    print ("  " +++ FS.name folder +++ ": " +++ Str.of_nat (List.length files)
             +++ " files")
  else ret tt.

Definition summary (total_merged total_errors : nat) : M unit :=
  print (nl +++ rule) ;;
  print "Summary" ;;
  print rule ;;
  print ("Successfully merged: " +++ Str.of_nat total_merged +++ " quizzes") ;;
  print ("Errors: " +++ Str.of_nat total_errors) ;;
  print (nl +++ "Output location: " +++ str_path OUTPUT_DIR) ;;
  if 0 <? total_merged then
    print (nl +++ "Created folders:") ;;
    folders <- iterdir OUTPUT_DIR ;;
    for_each (sort_by path_le folders) summary_folder
  else ret tt.

Definition main : M unit :=
  print rule ;;
  print "ECE109 Quiz Sorter and Merger" ;;
  print rule ;;
  print (nl +++ "Workspace: " +++ str_path []) ;;
  print ("Output directory: " +++ str_path OUTPUT_DIR) ;;
  print "" ;;
  items <- iterdir [] ;;
  semester_folders <- scan_semesters items [] ;;
  match semester_folders with
  | [] => print "No semester folders found!"
  | _ :: _ =>
      let semester_folders := sort_by semester_le semester_folders in
      print ("Found " +++ Str.of_nat (List.length semester_folders)
               +++ " semester folders:") ;;
      for_each semester_folders
        (fun '(season, year, p) =>
           print ("  - " +++ FS.name p +++ " (" +++ Str.capitalize season
                    +++ " " +++ year +++ ")")) ;;
      print "" ;;
      counts <- process_semesters semester_folders (0, 0) ;;
      summary (fst counts) (snd counts)
  end.

(** A run of the script in a fresh process on the tree [t]. *)
Definition run (t : node) : outcome unit * world := main (World t [] []).

End Script.

(** ** What the readers compute

    The functions below describe, as functions of the tree alone, what the
    parts of the script that only read the file system return; the
    properties part proves that the script computes them. *)

(** The entries of a directory as [iterdir] yields them. *)
Definition children (t : node) (p : path) : list path :=
  match FS.lookup t p with
  | Some (Dir es) => map (fun e => p ++ [fst e]) es
  | _ => []
  end.

(** The quiz number a folder name stands for, if any. *)
Definition quiz_number (nm : string) : option N :=
  match Re.re_match true QUIZ_PATTERN nm with
  | Some groups => Some (Str.digits_val 0%N (nth 0 groups ""))
  | None =>
      match Re.re_match true Q_PATTERN nm with
      | Some groups => Some (Str.digits_val 0%N (nth 0 groups ""))
      | None => None
      end
  end.

Definition quiz_entries (t : node) (items : list path) : list (N * path) :=
  flat_map
    (fun item =>
       if FS.is_dir t item then
         match quiz_number (FS.name item) with
         | Some n => [(n, item)]
         | None => []
         end
       else [])
    items.

Definition quiz_folders_of (t : node) (semester_path : path)
  : list (N * path) :=
  sort_by quiz_le (quiz_entries t (children t semester_path)).

(** The digits [s] starts with, and what follows them. *)
Fixpoint span_digits (s : string) : string * string :=
  match s with
  | String c s' =>
      if Str.is_digit c
      then let '(d, rest) := span_digits s' in (String c d, rest)
      else ("", s)
  | EmptyString => ("", "")
  end.

(** What is left of [s] after the prefix [pre], compared ignoring case. *)
Fixpoint strip_prefix_ci (pre s : string) : option string :=
  match pre, s with
  | EmptyString, _ => Some s
  | String a pre', String b s' =>
      if Ascii.eqb (Str.lower_char a) (Str.lower_char b)
      then strip_prefix_ci pre' s'
      else None
  | String _ _, EmptyString => None
  end.

(** "Quiz<N>": the name starts with "quiz" and at least one digit. *)
Definition spec_quiz_prefix (nm : string) : option N :=
  match strip_prefix_ci "Quiz" nm with
  | Some rest =>
      let '(d, _) := span_digits rest in
      if String.eqb d "" then None else Some (Str.digits_val 0%N d)
  | None => None
  end.

(** "Q<N>": the name is "q" and at least one digit, and nothing more when
    [strict]; a line feed may follow otherwise. *)
Definition spec_q_full (strict : bool) (nm : string) : option N :=
  match strip_prefix_ci "Q" nm with
  | Some rest =>
      let '(d, tail) := span_digits rest in
      if String.eqb d "" then None
      else if (if strict then String.eqb tail "" else Re.at_end tail)
      then Some (Str.digits_val 0%N d)
      else None
  | None => None
  end.

(** The spec's reading of the two folder conventions: "Quiz<N>" as a
    case-insensitive prefix, then "Q<N>" as a case-insensitive full
    match. *)
Definition spec_quiz_number (nm : string) : option N :=
  match spec_quiz_prefix nm with
  | Some n => Some n
  | None => spec_q_full true nm
  end.

(** The exact names tried for a part, in the order they are tried. *)
Definition exact_names (quiz_num part_num : N) : list string :=
  [ "Quiz" +++ Str.of_N quiz_num +++ "." +++ Str.of_N part_num +++ ".pdf";
    "Quiz" +++ Str.of_N quiz_num +++ "," +++ Str.of_N part_num +++ ".pdf" ].

(** The file chosen for one part of a quiz, if any. *)
Definition locate (t : node) (quiz_folder : path) (quiz_num part_num : N)
  : option path :=
  match
    find (fun nm => FS.exists_ t (quiz_folder ++ [nm]))
      (exact_names quiz_num part_num)
  with
  | Some nm => Some (quiz_folder ++ [nm])
  | None => find_loose quiz_num part_num (children t quiz_folder)
  end.

Definition located (t : node) (quiz_folder : path) (quiz_num : N)
    (part_nums : list N) : list path :=
  flat_map
    (fun part_num =>
       match locate t quiz_folder quiz_num part_num with
       | Some file => [file]
       | None => []
       end)
    part_nums.

(** The warnings printed for the parts that are not found. *)
Definition warnings_of (WS : string) (t : node) (quiz_folder : path)
    (quiz_num : N) (part_nums : list N) : list string :=
  flat_map
    (fun part_num =>
       match locate t quiz_folder quiz_num part_num with
       | Some _ => []
       | None => [warning WS part_num quiz_folder]
       end)
    part_nums.

(** ** What a merge reads *)

(** Opening and parsing one input. *)
Definition read_pdf (t : node) (p : path) : exn + list page :=
  match FS.lookup t p with
  | None => inl (OSError ENOENT p)
  | Some (Dir _) => inl (OSError EISDIR p)
  | Some (File (Data _)) => inl (PdfReadError p)
  | Some (File (Pdf pgs)) => inr pgs
  end.

(** The merge object after the loop of appends, and the exception that
    ended the loop early, if one did. *)
Fixpoint append_all (t : node) (pdf_paths : list path) (m : PdfMerger)
  : PdfMerger * option exn :=
  match pdf_paths with
  | [] => (m, None)
  | p :: rest =>
      match read_pdf t p with
      | inr pgs => append_all t rest (mkMerger (inputs m ++ [p]) (pages m ++ pgs))
      | inl e => (m, Some e)
      end
  end.

(** The pages of the inputs, in the order of the list, when every input is
    a readable PDF. *)
Fixpoint all_pages (t : node) (pdf_paths : list path) : option (list page) :=
  match pdf_paths with
  | [] => Some []
  | p :: rest =>
      match read_pdf t p, all_pages t rest with
      | inr pgs, Some more => Some (pgs ++ more)
      | _, _ => None
      end
  end.

(** The semester folders among [items], with their parsed names. *)
Definition semester_entries (t : node) (items : list path) : list semester :=
  flat_map
    (fun item =>
       if FS.is_dir t item then
         match parse_semester_folder (FS.name item) with
         | Some (season, year) => [(season, year, item)]
         | None => []
         end
       else [])
    items.

(** The semester folders of the workspace in the order they are processed. *)
Definition semesters_of (t : node) : list semester :=
  sort_by semester_le (semester_entries t (children t [])).

(** ** Traces of file system changes *)

(** The two calls of the script that change the file system. *)
Inductive fsop :=
| Mk (q : path)                  (* q.mkdir(parents=True, exist_ok=True) *)
| Wr (p : path) (c : content).   (* open(p, "wb") and write c *)

Definition apply_op (o : fsop) (t : node) : option node :=
  match o with
  | Mk q =>
      match FS.mkdir_parents t q with
      | inr t' => Some t'
      | inl _ => None
      end
  | Wr p c =>
      match FS.write_file t p c with
      | inr t' => Some t'
      | inl _ => None
      end
  end.

Fixpoint replay (ws : list fsop) (t : node) : option node :=
  match ws with
  | [] => Some t
  | o :: ws' =>
      match apply_op o t with
      | Some t' => replay ws' t'
      | None => None
      end
  end.

(** The changes the script makes: a folder [Quizzes/d] is created, or a
    file [Quizzes/d/f] written. *)
Definition out_op (o : fsop) : Prop :=
  match o with
  | Mk q => exists d, q = OUTPUT_DIR ++ [d]
  | Wr p _ => exists d f, p = OUTPUT_DIR ++ [d] ++ [f]
  end.

(** Replace the content of the file at [p], if there is a file. *)
Fixpoint set_content (p : path) (c : content) (t : node) : node :=
  match p with
  | [] =>
      match t with
      | File _ => File c
      | Dir _ => t
      end
  | x :: p' =>
      match t with
      | Dir es =>
          match FS.assoc x es with
          | Some n => Dir (FS.set_entry x (set_content p' c n) es)
          | None => t
          end
      | File _ => t
      end
  end.

(** ** What a run prints around the sweep *)

Section Lines.
Variable WS : string.

Definition header : list string :=
  [ rule; "ECE109 Quiz Sorter and Merger"; rule;
    nl +++ "Workspace: " +++ str_path WS [];
    "Output directory: " +++ str_path WS OUTPUT_DIR; "" ].

Definition found_line (sem : semester) : string :=
  let '(season, year, p) := sem in
  "  - " +++ FS.name p +++ " (" +++ Str.capitalize season +++ " " +++ year
    +++ ")".

Definition found_lines (semester_folders : list semester) : list string :=
  ("Found " +++ Str.of_nat (List.length semester_folders)
     +++ " semester folders:")
    :: map found_line semester_folders ++ [""].

(** The line of the summary for one entry of the output folder. *)
Definition folder_lines (t : node) (folder : path) : list string :=
  if FS.is_dir t folder then
    [ "  " +++ FS.name folder +++ ": "
        +++ Str.of_nat
              (List.length
                 (filter (fun item => Str.ends_with ".pdf" (FS.name item))
                    (children t folder)))
        +++ " files" ]
  else [].

Definition summary_lines (total_merged total_errors : nat) (t : node)
  : list string :=
  [ nl +++ rule; "Summary"; rule;
    "Successfully merged: " +++ Str.of_nat total_merged +++ " quizzes";
    "Errors: " +++ Str.of_nat total_errors;
    nl +++ "Output location: " +++ str_path WS OUTPUT_DIR ]
    ++ (if 0 <? total_merged then
          (nl +++ "Created folders:")
            :: flat_map (folder_lines t)
                 (sort_by path_le (children t OUTPUT_DIR))
        else []).

(** The line [merge_pdfs] prints for an exception. *)
Definition error_line (e : exn) : string :=
  "  Error merging PDFs: " +++ str_exn WS e.

End Lines.

(** ** Relating trees and runs *)

(** The place a change works on. *)
Definition target (o : fsop) : path :=
  match o with
  | Mk q => q
  | Wr p _ => p
  end.

(** Inputs: everything outside the output folder. *)
Definition agree_inputs (s1 s2 : node) : Prop :=
  forall x q, x <> "Quizzes" -> FS.lookup s1 (x :: q) = FS.lookup s2 (x :: q).

(** Two trees the script cannot tell apart: the same inputs, files in the
    way of an output folder at the same places, directories in the way of an
    output file at the same places. *)
Definition compat (s1 s2 : node) : Prop :=
  agree_inputs s1 s2
  /\ (forall q, List.length q <= 2 ->
        (FS.kind_at s1 q = FS.KFile <-> FS.kind_at s2 q = FS.KFile))
  /\ (forall q, List.length q = 3 ->
        (FS.kind_at s1 q = FS.KDir <-> FS.kind_at s2 q = FS.KDir)).

(** The effect of a trace all of whose targets exist already. *)
Definition overwrite (o : fsop) (s : node) : node :=
  match o with
  | Mk _ => s
  | Wr p c => set_content p c s
  end.

(** The folder to make is a directory already, the file to write a file. *)
Definition target_exists (s : node) (o : fsop) : Prop :=
  match o with
  | Mk q => FS.kind_at s q = FS.KDir
  | Wr p _ => FS.kind_at s p = FS.KFile
  end.

(** Both calls succeed, or both fail with the same error number. *)
Definition same_err (r1 r2 : errno + node) : Prop :=
  match r1, r2 with
  | inl e1, inl e2 => e1 = e2
  | inr _, inr _ => True
  | _, _ => False
  end.

(** Two states reached from [T1] and [T2] by the same changes. *)
Definition in_step (T1 T2 : node) (s1 s2 : node) : Prop :=
  exists ws,
    Forall out_op ws /\ replay ws T1 = Some s1 /\ replay ws T2 = Some s2.

(** From states in step and a first state in [P], [m] returns in both
    runs, with the same value and the same lines printed, in states that
    are in step again, and with [Q] for the value and the first state. *)
Definition twin (T1 T2 : node) {A} (P : node -> Prop) (m : M A)
    (Q : A -> node -> Prop) : Prop :=
  forall w1 w2,
    in_step T1 T2 (fs w1) (fs w2) -> P (fs w1) ->
    exists a lines w1' w2',
      m w1 = (Returned a, w1')
      /\ m w2 = (Returned a, w2')
      /\ stdout w1' = stdout w1 ++ lines
      /\ stdout w2' = stdout w2 ++ lines
      /\ in_step T1 T2 (fs w1') (fs w2')
      /\ Q a (fs w1').

(** Once a quiz was merged the output folder is a directory. *)
Definition output_made (total_merged : nat) (s : node) : Prop :=
  0 < total_merged -> FS.is_dir s OUTPUT_DIR = true.

(** The line printed for a quiz: skipped, merged, or failed. *)
Definition skip_line (quiz_num : N) (found : nat) : string :=
  "  Quiz " +++ Str.of_N quiz_num +++ ": Found " +++ Str.of_nat found
    +++ "/3 parts - skipping".

Definition merged_line (quiz_num : N) (year season : string) : string :=
  "  Quiz " +++ Str.of_N quiz_num +++ ": Merged -> "
    +++ output_filename quiz_num year season.

Definition failed_line (quiz_num : N) : string :=
  "  Quiz " +++ Str.of_N quiz_num +++ ": Failed to merge".

(** A directory of [T1] outside the output folder. *)
Definition input_dir (T1 : node) (qf : path) : Prop :=
  exists x r, qf = x :: r /\ x <> "Quizzes" /\ FS.is_dir T1 qf = true.

(** A semester folder: a directory of the workspace [T1] other than the
    output folder. *)
Definition semester_ok (T1 : node) (sem : semester) : Prop :=
  exists x, snd sem = [x] /\ x <> "Quizzes" /\ FS.is_dir T1 [x] = true.

(** The number of quiz folders in the semester folders. *)
Definition quiz_total (T1 : node) (semester_folders : list semester) : nat :=
  list_sum
    (map (fun sem => List.length (quiz_folders_of T1 (snd sem)))
       semester_folders).

(** A semester "Quizzes-Fall-2022" with a complete quiz 3 and a quiz 2 that
    lacks its second part. *)
Definition sample_tree : node :=
  Dir [("Quizzes-Fall-2022",
        Dir [("Quiz3", Dir [("Quiz3.1.pdf", File (Pdf [1]));
                            ("Quiz3.2.pdf", File (Pdf [2]));
                            ("Quiz3.3.pdf", File (Pdf [3]))]);
             ("Quiz2", Dir [("Quiz2.1.pdf", File (Pdf [4]));
                            ("Quiz2.3.pdf", File (Pdf [5]))])])].

(** * Properties *)

(** ** Strings *)

Lemma lower_char_idem (c : ascii) :
  Str.lower_char (Str.lower_char c) = Str.lower_char c.
Proof.
  destruct c as [[] [] [] [] [] [] [] []]; reflexivity.
Qed.

Lemma lower_idem (s : string) : Str.lower (Str.lower s) = Str.lower s.
Proof.
  induction s as [| c s IH]; simpl; [reflexivity |].
  now rewrite lower_char_idem, IH.
Qed.

Lemma append_nil_r (s : string) : s +++ "" = s.
Proof. induction s; simpl; congruence. Qed.

Lemma append_assoc (a b c : string) : (a +++ b) +++ c = a +++ (b +++ c).
Proof. induction a; simpl; congruence. Qed.

Lemma all_chars_app (p : ascii -> bool) (a b : string) :
  Str.all_chars p (a +++ b) = Str.all_chars p a && Str.all_chars p b.
Proof.
  induction a as [| c a IH]; simpl; [reflexivity |].
  now rewrite IH, andb_assoc.
Qed.

(** ** The matcher *)

Module ReFacts.
Import Re.

(** What a repetition consumed, and that the rest of the pattern accepted
    what it left. *)
Lemma rep_inv k ic cc lo hi :
  forall s n g cl r,
    rep k ic cc lo hi n s (MState cl (Some g)) = Some r ->
    exists pre post,
      s = pre +++ post
      /\ Str.all_chars (accepts ic cc) pre = true
      /\ lo <= n + String.length pre
      /\ (pre = "" \/ below hi (n + String.length pre - 1) = true)
      /\ k post (MState cl (Some (g +++ pre))) = Some r.
Proof.
  induction s as [| c s IH]; intros n g cl r H; simpl in H.
  - destruct (lo <=? n) eqn:Hlo; [| discriminate].
    exists "", "". apply Nat.leb_le in Hlo. simpl.
    rewrite append_nil_r. repeat split; auto. lia.
  - destruct (accepts ic cc c && below hi n) eqn:Hacc.
    + apply andb_prop in Hacc as [Ha Hb].
      unfold consume in H; simpl in H.
      destruct (rep k ic cc lo hi (S n) s
                  (MState cl (Some (g +++ String c "")))) as [r'|] eqn:Hrec.
      * inversion H; subst r'; clear H.
        apply IH in Hrec as (pre & post & -> & Hall & Hlen & Hhi & Hk).
        exists (String c pre), post. simpl.
        rewrite Ha, Hall. rewrite append_assoc in Hk. simpl in Hk.
        repeat split; auto; [lia |].
        right. destruct Hhi as [-> | Hhi]; simpl.
        -- now replace (n + 1 - 1) with n by lia.
        -- now replace (n + S (String.length pre) - 1)
             with (S n + String.length pre - 1) by lia.
      * destruct (lo <=? n) eqn:Hlo; [| discriminate].
        exists "", (String c s). apply Nat.leb_le in Hlo. simpl.
        rewrite append_nil_r. repeat split; auto. lia.
    + destruct (lo <=? n) eqn:Hlo; [| discriminate].
      exists "", (String c s). apply Nat.leb_le in Hlo. simpl.
      rewrite append_nil_r. repeat split; auto. lia.
Qed.

(** The literal prefix of a pattern consumes as many characters and leaves
    the captures alone while no group is open. *)
Lemma exec_lits ic (l : string) (ts : list tok) :
  forall s cl r,
    exec ic (lits l ++ ts) s (MState cl None) = Some r ->
    exists rest,
      String.length s = String.length l + String.length rest
      /\ exec ic ts rest (MState cl None) = Some r.
Proof.
  induction l as [| c l IH]; intros s cl r H; simpl in H.
  - exists s. auto.
  - destruct s as [| d s]; [discriminate |].
    destruct (if ic then _ else _); [| discriminate].
    unfold consume in H; simpl in H.
    apply IH in H as (rest & Hlen & H).
    exists rest. simpl. split; [lia | exact H].
Qed.

End ReFacts.

(** One step of the matcher on a pattern given token by token. *)
Ltac re_step H :=
  cbn [Re.exec Re.group Re.lits app Re.open_group Re.close_group Re.consume
       Re.closed Re.opened Re.accepts String.append] in H.

(** Quizzes-(\w+)-(\d{4}) captures a non-empty word and four digits. *)
Lemma first_pattern_groups (name : string) (groups : list string) :
  Re.re_match false PATTERN_HYPHEN name = Some groups ->
  exists season year,
    groups = [season; year]
    /\ season <> ""
    /\ Str.all_chars Str.is_word season = true
    /\ String.length year = 4
    /\ Str.all_chars Str.is_digit year = true.
Proof.
  unfold Re.re_match, Re.init, PATTERN_HYPHEN. intros H.
  apply ReFacts.exec_lits in H as (rest & _ & H).
  re_step H.
  apply ReFacts.rep_inv in H as (season & post & -> & Hw & Hlen & _ & H).
  re_step H.
  destruct post as [| d post]; [discriminate |].
  destruct (Ascii.eqb "-" d); [| discriminate].
  re_step H.
  apply ReFacts.rep_inv in H as (year & post' & -> & Hd & Hlo & Hhi & H).
  re_step H.
  inversion H; subst groups; clear H.
  exists season, year. simpl in Hlen, Hlo, Hhi.
  repeat split; auto.
  - intros ->. simpl in Hlen. lia.
  - destruct Hhi as [-> | Hhi]; [simpl in Hlo; lia |].
    apply Nat.ltb_lt in Hhi. lia.
Qed.

(** Quizzes-(\w+)(\d{4}) captures two groups as well. *)
Lemma second_pattern_groups (name : string) (groups : list string) :
  Re.re_match false PATTERN_NO_HYPHEN name = Some groups ->
  exists season year, groups = [season; year].
Proof.
  unfold Re.re_match, Re.init, PATTERN_NO_HYPHEN. intros H.
  apply ReFacts.exec_lits in H as (rest & _ & H).
  re_step H.
  apply ReFacts.rep_inv in H as (season & post & -> & _ & _ & _ & H).
  re_step H.
  apply ReFacts.rep_inv in H as (year & post' & -> & _ & _ & _ & H).
  re_step H.
  inversion H. eauto.
Qed.

Lemma parse_semester_folder_first (name season year : string) :
  Re.re_match false PATTERN_HYPHEN name = Some [season; year] ->
  parse_semester_folder name = Some (Str.lower season, year).
Proof.
  intros H. unfold parse_semester_folder, SEMESTER_PATTERNS.
  cbn [parse_semester_loop]. now rewrite H.
Qed.

Lemma parse_semester_folder_cases (name : string) :
  match parse_semester_folder name with
  | Some (season, year) =>
      exists raw,
        season = Str.lower raw
        /\ (Re.re_match false PATTERN_HYPHEN name = Some [raw; year]
            \/ (Re.re_match false PATTERN_HYPHEN name = None
                /\ Re.re_match false PATTERN_NO_HYPHEN name = Some [raw; year]))
  | None =>
      Re.re_match false PATTERN_HYPHEN name = None
      /\ Re.re_match false PATTERN_NO_HYPHEN name = None
  end.
Proof.
  unfold parse_semester_folder, SEMESTER_PATTERNS. cbn [parse_semester_loop].
  destruct (Re.re_match false PATTERN_HYPHEN name) as [g1 |] eqn:H1.
  - destruct (first_pattern_groups _ _ H1) as (s & y & -> & _).
    exists s. auto.
  - destruct (Re.re_match false PATTERN_NO_HYPHEN name) as [g2 |] eqn:H2.
    + destruct (second_pattern_groups _ _ H2) as (s & y & ->).
      exists s. auto.
    + auto.
Qed.

(** C2: [parse_semester_folder] sends "Quizzes-Fall-2021" to
    ("fall", "2021"), "Quizzes-Fall2024" to ("fall", "2024"),
    "Quizzes-Spring-2021" to ("spring", "2021") and "Notes" to [None]; a
    name is sent to [None] exactly when neither pattern matches it; when the
    first pattern matches, its groups are the ones returned, whatever the
    second pattern would capture; the season returned is in lower case. *)
Theorem parse_semester_folder_spec :
  parse_semester_folder "Quizzes-Fall-2021" = Some ("fall", "2021")
  /\ parse_semester_folder "Quizzes-Fall2024" = Some ("fall", "2024")
  /\ parse_semester_folder "Quizzes-Spring-2021" = Some ("spring", "2021")
  /\ parse_semester_folder "Notes" = None
  /\ (forall name,
        parse_semester_folder name = None
        <-> (forall pattern, In pattern SEMESTER_PATTERNS ->
             Re.re_match false pattern name = None))
  /\ (forall name groups other,
        Re.re_match false PATTERN_HYPHEN name = Some groups ->
        Re.re_match false PATTERN_NO_HYPHEN name = Some other ->
        exists season year,
          groups = [season; year]
          /\ parse_semester_folder name = Some (Str.lower season, year))
  /\ (forall name season year,
        parse_semester_folder name = Some (season, year) ->
        Str.lower season = season).
Proof.
  repeat split; try reflexivity.
  - intros H pattern Hin.
    pose proof (parse_semester_folder_cases name) as Hc.
    rewrite H in Hc. destruct Hc as [H1 H2].
    destruct Hin as [<- | [<- | []]]; assumption.
  - intros H.
    pose proof (parse_semester_folder_cases name) as Hc.
    destruct (parse_semester_folder name) as [[season year] |]; [| reflexivity].
    destruct Hc as (raw & _ & [H1 | [_ H2]]).
    + rewrite (H PATTERN_HYPHEN) in H1; [discriminate | now left].
    + rewrite (H PATTERN_NO_HYPHEN) in H2; [discriminate | right; now left].
  - intros name groups other H1 _.
    destruct (first_pattern_groups _ _ H1) as (season & year & -> & _).
    exists season, year. split; [reflexivity |].
    now apply parse_semester_folder_first.
  - intros name season year H.
    pose proof (parse_semester_folder_cases name) as Hc.
    rewrite H in Hc. destruct Hc as (raw & -> & _).
    apply lower_idem.
Qed.

(** Both patterns match "Quizzes-A1234-5678" and capture different groups;
    the groups of the first are returned. *)
Lemma parse_semester_folder_spec_witness :
  Re.re_match false PATTERN_HYPHEN "Quizzes-A1234-5678" = Some ["A1234"; "5678"]
  /\ Re.re_match false PATTERN_NO_HYPHEN "Quizzes-A1234-5678" = Some ["A"; "1234"]
  /\ parse_semester_folder "Quizzes-A1234-5678" = Some ("a1234", "5678")
  /\ Str.lower "a1234" = "a1234".
Proof.
  destruct parse_semester_folder_spec as (_ & _ & _ & _ & _ & Hfirst & Hlow).
  split; [reflexivity |]. split; [reflexivity |].
  destruct (Hfirst "Quizzes-A1234-5678" ["A1234"; "5678"] ["A"; "1234"]
              eq_refl eq_refl) as (season & year & Hg & Hp).
  injection Hg as <- <-.
  split; [exact Hp |].
  exact (Hlow "Quizzes-A1234-5678" "a1234" "5678" Hp).
Defined.

(** ** Stable sorting *)

Section Sorting.
Context {A : Type} (le : A -> A -> bool).
Hypothesis le_total : forall a b, le a b = true \/ le b a = true.
Hypothesis le_trans : forall a b c, le a b = true -> le b c = true -> le a c = true.

Lemma insert_by_perm (x : A) (l : list A) :
  Permutation (x :: l) (insert_by le x l).
Proof.
  induction l as [| y l IH]; simpl; [reflexivity |].
  destruct (le x y); [reflexivity |].
  rewrite perm_swap. now apply perm_skip.
Qed.

Lemma sort_by_perm (l : list A) : Permutation l (sort_by le l).
Proof.
  induction l as [| x l IH]; simpl; [reflexivity |].
  rewrite <- insert_by_perm. now apply perm_skip.
Qed.

Lemma insert_by_sorted (x : A) (l : list A) :
  StronglySorted (fun a b => le a b = true) l ->
  StronglySorted (fun a b => le a b = true) (insert_by le x l).
Proof.
  induction 1 as [| y l Hs IH Hall]; simpl.
  - repeat constructor.
  - destruct (le x y) eqn:Hxy.
    + constructor; [now constructor |].
      constructor; [exact Hxy |].
      eapply Forall_impl; [| exact Hall]. intros b Hb. eauto.
    + constructor; [exact IH |].
      assert (Hyx : le y x = true) by (destruct (le_total x y); congruence).
      eapply Permutation_Forall; [apply insert_by_perm |].
      now constructor.
Qed.

Lemma sort_by_sorted (l : list A) :
  StronglySorted (fun a b => le a b = true) (sort_by le l).
Proof.
  induction l as [| x l IH]; simpl; [constructor |].
  now apply insert_by_sorted.
Qed.

End Sorting.

Lemma quiz_le_total (a b : N * path) : quiz_le a b = true \/ quiz_le b a = true.
Proof. unfold quiz_le. rewrite !N.leb_le. lia. Qed.

Lemma quiz_le_trans (a b c : N * path) :
  quiz_le a b = true -> quiz_le b c = true -> quiz_le a c = true.
Proof. unfold quiz_le. rewrite !N.leb_le. lia. Qed.

(** ** The quiz folder patterns *)

(** Quiz(\d+) and Q(\d+)$ capture one non-empty run of digits. *)
Lemma quiz_pattern_groups (nm : string) (groups : list string) :
  Re.re_match true QUIZ_PATTERN nm = Some groups ->
  exists g, groups = [g] /\ g <> "" /\ Str.all_chars Str.is_digit g = true.
Proof.
  unfold Re.re_match, Re.init, QUIZ_PATTERN. intros H.
  apply ReFacts.exec_lits in H as (rest & _ & H).
  re_step H.
  apply ReFacts.rep_inv in H as (g & post & -> & Hd & Hlen & _ & H).
  re_step H. inversion H; subst groups; clear H.
  exists g. repeat split; auto.
  intros ->. simpl in Hlen. lia.
Qed.

Lemma q_pattern_groups (nm : string) (groups : list string) :
  Re.re_match true Q_PATTERN nm = Some groups ->
  exists g, groups = [g] /\ g <> "" /\ Str.all_chars Str.is_digit g = true.
Proof.
  unfold Re.re_match, Re.init, Q_PATTERN. intros H.
  apply ReFacts.exec_lits in H as (rest & _ & H).
  re_step H.
  apply ReFacts.rep_inv in H as (g & post & -> & Hd & Hlen & _ & H).
  re_step H. destruct (Re.at_end post); [| discriminate].
  inversion H; subst groups; clear H.
  exists g. repeat split; auto.
  intros ->. simpl in Hlen. lia.
Qed.

Lemma int_digits (g : string) :
  g <> "" -> Str.all_chars Str.is_digit g = true ->
  int g = ret (Str.digits_val 0%N g).
Proof.
  intros Hne Hd. unfold int. rewrite Hd.
  destruct (String.eqb_spec g ""); [contradiction | reflexivity].
Qed.

(** ** find_quiz_folders *)

Lemma find_quiz_folders_loop_eq (items : list path) :
  forall quiz_folders w,
    find_quiz_folders_loop items quiz_folders w
    = (Returned (quiz_folders ++ quiz_entries (fs w) items), w).
Proof.
  induction items as [| item rest IH]; intros acc w.
  - simpl. unfold ret. now rewrite app_nil_r.
  - cbn [find_quiz_folders_loop quiz_entries flat_map].
    unfold bind at 1, is_dir at 1. unfold quiz_number.
    destruct (FS.is_dir (fs w) item); cbn [negb].
    + destruct (Re.re_match true QUIZ_PATTERN (FS.name item)) as [g |] eqn:H1.
      * destruct (quiz_pattern_groups _ _ H1) as (d & -> & Hne & Hd).
        unfold bind, int_group1. cbn [nth]. rewrite (int_digits d Hne Hd).
        unfold ret at 1. rewrite IH. now rewrite <- app_assoc.
      * destruct (Re.re_match true Q_PATTERN (FS.name item)) as [g |] eqn:H2.
        -- destruct (q_pattern_groups _ _ H2) as (d & -> & Hne & Hd).
           unfold bind, int_group1. cbn [nth]. rewrite (int_digits d Hne Hd).
           unfold ret at 1. rewrite IH. now rewrite <- app_assoc.
        -- apply IH.
    + apply IH.
Qed.

Lemma iterdir_dir (p : path) (w : world) (es : list (string * node)) :
  FS.lookup (fs w) p = Some (Dir es) ->
  iterdir p w = (Returned (children (fs w) p), w).
Proof. intros H. unfold iterdir, children. now rewrite H. Qed.

(** On a directory [find_quiz_folders] returns, and changes nothing. *)
Lemma find_quiz_folders_eq (semester_path : path) (w : world) :
  FS.is_dir (fs w) semester_path = true ->
  find_quiz_folders semester_path w
  = (Returned (quiz_folders_of (fs w) semester_path), w).
Proof.
  unfold FS.is_dir. intros H.
  destruct (FS.lookup (fs w) semester_path) as [[c | es] |] eqn:Hl;
    try discriminate.
  unfold find_quiz_folders, bind. rewrite (iterdir_dir _ _ _ Hl).
  rewrite find_quiz_folders_loop_eq. reflexivity.
Qed.

(** The folders come out in ascending order of their numbers, and they are
    the recognised subdirectories, each once. *)
Lemma quiz_folders_of_sorted (t : node) (semester_path : path) :
  StronglySorted (fun a b => (fst a <= fst b)%N)
    (quiz_folders_of t semester_path)
  /\ Permutation (quiz_entries t (children t semester_path))
       (quiz_folders_of t semester_path).
Proof.
  split.
  - pose proof (sort_by_sorted quiz_le quiz_le_total quiz_le_trans
                  (quiz_entries t (children t semester_path))) as H.
    unfold quiz_folders_of.
    induction H as [| a l Hs IH Hall]; constructor; auto.
    eapply Forall_impl; [| exact Hall].
    intros b Hb. now apply N.leb_le.
  - apply sort_by_perm.
Qed.

(** Quiz1, Quiz10 and Q2 come out as 1, 2, 10; entries that are not
    directories or match neither convention are left out. *)
Example find_quiz_folders_numeric_order :
  let t := Dir [("S", Dir [("Quiz1", Dir []); ("notes", Dir []);
                           ("Quiz10", Dir []); ("Quiz3", File (Data ""));
                           ("Q2", Dir [])])] in
  find_quiz_folders ["S"] (World t [] [])
  = (Returned [(1%N, ["S"; "Quiz1"]); (2%N, ["S"; "Q2"]);
               (10%N, ["S"; "Quiz10"])],
     World t [] []).
Proof. vm_compute. reflexivity. Qed.

Lemma span_digits_spec (s : string) :
  s = fst (span_digits s) +++ snd (span_digits s)
  /\ Str.all_chars Str.is_digit (fst (span_digits s)) = true.
Proof.
  induction s as [| c s [IH1 IH2]]; simpl; [auto |].
  destruct (Str.is_digit c) eqn:Hc; [| auto].
  destruct (span_digits s) as [d rest]. simpl in *.
  rewrite Hc, IH2. split; [now f_equal | reflexivity].
Qed.

(** *** The patterns, read as functions *)

Lemma exec_lits_ci (l : string) (ts : list Re.tok) :
  forall s cl,
    Re.exec true (Re.lits l ++ ts) s (Re.MState cl None)
    = match strip_prefix_ci l s with
      | Some rest => Re.exec true ts rest (Re.MState cl None)
      | None => None
      end.
Proof.
  induction l as [| a l IH]; intros s cl; [reflexivity |].
  cbn [Re.lits app Re.exec strip_prefix_ci].
  destruct s as [| b s]; [reflexivity |].
  cbn [Re.accepts].
  destruct (Ascii.eqb (Str.lower_char a) (Str.lower_char b)); [| reflexivity].
  unfold Re.consume. cbn [Re.opened]. apply IH.
Qed.

(** A greedy run of digits takes all the digits there are, when the rest
    of the pattern cannot start at a digit or cannot fail. *)
Lemma rep_digits_greedy (k : string -> Re.mstate -> option (list string)) :
  (forall c s st, Str.is_digit c = true -> k (String c s) st = None)
  \/ (forall s st, k s st <> None) ->
  forall s n g cl,
    Re.rep k true Re.CDigit 1 None n s (Re.MState cl (Some g))
    = let '(d, rest) := span_digits s in
      if 1 <=? n + String.length d
      then k rest (Re.MState cl (Some (g +++ d)))
      else None.
Proof.
  intros Hk. induction s as [| c s IH]; intros n g cl.
  - simpl. rewrite append_nil_r, Nat.add_0_r. reflexivity.
  - cbn [Re.rep span_digits Re.accepts Re.below]. rewrite andb_true_r.
    destruct (Str.is_digit c) eqn:Hc.
    + unfold Re.consume. cbn [Re.opened Re.closed].
      rewrite IH. destruct (span_digits s) as [d rest].
      cbn [String.length].
      replace (n + S (String.length d)) with (S n + String.length d) by lia.
      rewrite append_assoc. cbn [String.append].
      destruct (1 <=? S n + String.length d) eqn:Hlo.
      * destruct (k rest _) as [r |] eqn:Hr; [reflexivity |].
        destruct Hk as [Hk | Hk]; [| now elim (Hk _ _ Hr)].
        rewrite (Hk c s _ Hc). now destruct (1 <=? n).
      * apply Nat.leb_gt in Hlo. lia.
    + rewrite append_nil_r. cbn [String.length]. now rewrite Nat.add_0_r.
Qed.

Lemma quiz_pattern_eq (nm : string) :
  Re.re_match true QUIZ_PATTERN nm
  = match strip_prefix_ci "Quiz" nm with
    | Some rest =>
        let '(d, _) := span_digits rest in
        if String.eqb d "" then None else Some [d]
    | None => None
    end.
Proof.
  unfold Re.re_match, Re.init, QUIZ_PATTERN. rewrite exec_lits_ci.
  destruct (strip_prefix_ci "Quiz" nm) as [rest |]; [| reflexivity].
  cbn [Re.exec Re.group app]. unfold Re.open_group. cbn [Re.closed].
  rewrite rep_digits_greedy by (right; intros s st; discriminate).
  destruct (span_digits rest) as [d tail]. cbn [String.append].
  destruct d as [| c d]; reflexivity.
Qed.

Lemma q_pattern_eq (nm : string) :
  Re.re_match true Q_PATTERN nm
  = match strip_prefix_ci "Q" nm with
    | Some rest =>
        let '(d, tail) := span_digits rest in
        if String.eqb d "" then None
        else if Re.at_end tail then Some [d] else None
    | None => None
    end.
Proof.
  unfold Re.re_match, Re.init, Q_PATTERN. rewrite exec_lits_ci.
  destruct (strip_prefix_ci "Q" nm) as [rest |]; [| reflexivity].
  cbn [Re.exec Re.group app]. unfold Re.open_group. cbn [Re.closed].
  rewrite rep_digits_greedy.
  - destruct (span_digits rest) as [d tail]. cbn [String.append].
    destruct d as [| c d]; [reflexivity |].
    cbn [String.length Nat.add Nat.leb String.eqb].
    unfold Re.close_group. cbn [Re.opened Re.closed app].
    destruct (Re.at_end tail); reflexivity.
  - left. intros c s st Hc. unfold Re.close_group.
    assert (Hend : Re.at_end (String c s) = false).
    { destruct s; [| reflexivity]. simpl.
      destruct (Ascii.eqb_spec c "010"%char) as [-> | _];
        [discriminate | reflexivity]. }
    destruct (Re.opened st); cbn [Re.exec]; now rewrite Hend.
Qed.

(** The quiz number the code reads off a folder name is the spec's, except
    that "Q<N>" may be followed by one line feed. *)
Lemma quiz_number_spec (nm : string) :
  quiz_number nm
  = match spec_quiz_prefix nm with
    | Some n => Some n
    | None => spec_q_full false nm
    end.
Proof.
  unfold quiz_number, spec_quiz_prefix, spec_q_full.
  rewrite quiz_pattern_eq, q_pattern_eq.
  destruct (strip_prefix_ci "Quiz" nm) as [rest |].
  - destruct (span_digits rest) as [d tail].
    destruct (String.eqb d ""); [| reflexivity].
    destruct (strip_prefix_ci "Q" nm) as [rest' |]; [| reflexivity].
    destruct (span_digits rest') as [d' tail'].
    destruct (String.eqb d' ""); [reflexivity |].
    destruct (Re.at_end tail'); reflexivity.
  - destruct (strip_prefix_ci "Q" nm) as [rest' |]; [| reflexivity].
    destruct (span_digits rest') as [d' tail'].
    destruct (String.eqb d' ""); [reflexivity |].
    destruct (Re.at_end tail'); reflexivity.
Qed.

(** So the code and the spec part ways only on a name that ends in a line
    feed. *)
Lemma quiz_number_differs (nm : string) :
  quiz_number nm <> spec_quiz_number nm ->
  spec_quiz_number nm = None
  /\ exists q d,
       nm = String q (d +++ nl)
       /\ Str.lower_char q = "q"%char
       /\ d <> ""
       /\ Str.all_chars Str.is_digit d = true
       /\ quiz_number nm = Some (Str.digits_val 0%N d).
Proof.
  rewrite quiz_number_spec. unfold spec_quiz_number.
  destruct (spec_quiz_prefix nm) as [n |]; [congruence |].
  unfold spec_q_full.
  destruct nm as [| q rest]; [simpl; congruence |].
  cbn [strip_prefix_ci].
  destruct (Ascii.eqb_spec (Str.lower_char "Q") (Str.lower_char q)) as [Hq | Hq];
    [| congruence].
  pose proof (span_digits_spec rest) as Hspan.
  destruct (span_digits rest) as [d tail]. destruct Hspan as (-> & Hd).
  destruct (String.eqb_spec d ""); [congruence |].
  destruct (String.eqb_spec tail "") as [-> | Htail].
  - simpl. congruence.
  - intros Hneq. split; [reflexivity |].
    destruct tail as [| c [| c' tail]]; simpl in Hneq |- *; try congruence.
    destruct (Ascii.eqb_spec c "010"%char) as [-> | _]; [| congruence].
    exists q, d. simpl in Hd. repeat split; auto.
Qed.

(** C4 fails on the code: a subdirectory whose name is "Q2" followed by a
    line feed is returned as quiz 2, although the name is no full match of
    "Q<N>"; [$] also matches just before a final newline.  Apart from such
    names the code reads the folder names as the spec does
    ([quiz_number_differs]), and the folders come out in ascending order of
    their numbers ([quiz_folders_of_sorted]). *)
Theorem find_quiz_folders_trailing_newline :
  let t := Dir [("S", Dir [("Q2" +++ nl, Dir [])])] in
  find_quiz_folders ["S"] (World t [] [])
  = (Returned [(2%N, ["S"; "Q2" +++ nl])], World t [] [])
  /\ spec_quiz_number ("Q2" +++ nl) = None.
Proof. split; vm_compute; reflexivity. Qed.

(** ** find_quiz_parts *)

Section Parts.
Variable WS : string.

Lemma find_exact_eq (quiz_folder : path) (patterns : list string) (w : world) :
  find_exact quiz_folder patterns w
  = (Returned
       (option_map (fun nm => quiz_folder ++ [nm])
          (find (fun nm => FS.exists_ (fs w) (quiz_folder ++ [nm])) patterns)),
     w).
Proof.
  induction patterns as [| pattern rest IH]; [reflexivity |].
  cbn [find_exact find]. unfold bind at 1, exists_ at 1.
  destruct (FS.exists_ (fs w) (quiz_folder ++ [pattern])); [reflexivity |].
  exact IH.
Qed.

(** One round of the loop: the part found is added, or a warning printed. *)
Lemma find_part_eq (quiz_folder : path) (quiz_num part_num : N)
    (parts : list path) (w : world) :
  FS.is_dir (fs w) quiz_folder = true ->
  find_part WS quiz_folder quiz_num part_num parts w
  = match locate (fs w) quiz_folder quiz_num part_num with
    | Some file => (Returned (parts ++ [file]), w)
    | None =>
        (Returned parts,
         World (fs w) (mergers w)
           (stdout w ++ [warning WS part_num quiz_folder]))
    end.
Proof.
  unfold FS.is_dir. intros Hd.
  destruct (FS.lookup (fs w) quiz_folder) as [[c | es] |] eqn:Hl;
    try discriminate.
  unfold find_part, bind at 1. rewrite find_exact_eq.
  unfold locate. fold (exact_names quiz_num part_num).
  destruct (find _ (exact_names quiz_num part_num)) as [nm |];
    cbn [option_map]; [reflexivity |].
  unfold bind at 1. rewrite (iterdir_dir _ _ _ Hl).
  destruct (find_loose quiz_num part_num (children (fs w) quiz_folder));
    reflexivity.
Qed.

Lemma find_parts_loop_eq (quiz_folder : path) (quiz_num : N)
    (part_nums : list N) :
  forall parts w,
    FS.is_dir (fs w) quiz_folder = true ->
    find_parts_loop WS quiz_folder quiz_num part_nums parts w
    = (Returned (parts ++ located (fs w) quiz_folder quiz_num part_nums),
       World (fs w) (mergers w)
         (stdout w ++ warnings_of WS (fs w) quiz_folder quiz_num part_nums)).
Proof.
  induction part_nums as [| part_num rest IH]; intros parts w Hd.
  - simpl. unfold ret. rewrite !app_nil_r. now destruct w.
  - cbn [find_parts_loop located warnings_of flat_map].
    unfold bind. rewrite find_part_eq by exact Hd.
    destruct (locate (fs w) quiz_folder quiz_num part_num) as [file |].
    + rewrite IH by exact Hd. now rewrite <- app_assoc.
    + rewrite IH by exact Hd. cbn [fs mergers stdout].
      now rewrite <- app_assoc.
Qed.

Lemma find_quiz_parts_eq (quiz_folder : path) (quiz_num : N) (w : world) :
  FS.is_dir (fs w) quiz_folder = true ->
  find_quiz_parts WS quiz_folder quiz_num w
  = (Returned (located (fs w) quiz_folder quiz_num [1; 2; 3]%N),
     World (fs w) (mergers w)
       (stdout w ++ warnings_of WS (fs w) quiz_folder quiz_num [1; 2; 3]%N)).
Proof.
  intros Hd. unfold find_quiz_parts.
  now rewrite find_parts_loop_eq by exact Hd.
Qed.

Lemma find_loose_first (quiz_num part_num : N) (files : list path) :
  match find_loose quiz_num part_num files with
  | Some file =>
      exists before after,
        files = before ++ file :: after
        /\ loose_match quiz_num part_num file = true
        /\ Forall (fun f => loose_match quiz_num part_num f = false) before
  | None => Forall (fun f => loose_match quiz_num part_num f = false) files
  end.
Proof.
  induction files as [| f rest IH]; simpl; [constructor |].
  destruct (loose_match quiz_num part_num f) eqn:Hf.
  - exists [], rest. repeat split; auto.
  - destruct (find_loose quiz_num part_num rest) as [file |].
    + destruct IH as (before & after & -> & Hm & Hall).
      exists (f :: before), after. repeat split; auto.
    + now constructor.
Qed.

End Parts.

(** The fallback accepts any case, either separator and anything between
    the matched start of the name and the suffix; it rejects a name that
    only contains a match, and a name with another suffix. *)
Example loose_match_examples :
  loose_match 1 1 ["S"; "QUIZ1,1.PDF"] = true
  /\ loose_match 1 1 ["S"; "quiz1.1.pdf.old.pdf"] = true
  /\ loose_match 1 1 ["S"; "MyQuiz1.1.pdf"] = false
  /\ loose_match 1 1 ["S"; "Quiz1.1.pdf.txt"] = false
  /\ loose_match 1 1 ["S"; "Quiz1.2.pdf"] = false.
Proof. repeat split; vm_compute; reflexivity. Qed.

(** C3: in a quiz folder, [find_quiz_parts] goes through the positions
    1, 2, 3 in that order and returns, without raising, the files found for
    them in that order, printing one warning for each position left out.
    For a position the file is the exact dot name when it exists, else the
    exact comma name when it exists, else the first entry of the folder, in
    listing order, with suffix ".pdf" (in any case) whose name
    [Quiz{N}[.,]{p}\.pdf] matches ignoring case, as [re.match] does: from
    the start of the name on; when there is no such entry the position is
    left out. *)
Theorem find_quiz_parts_spec (WS : string) (quiz_folder : path) (quiz_num : N)
    (w : world) :
  FS.is_dir (fs w) quiz_folder = true ->
  let t := fs w in
  find_quiz_parts WS quiz_folder quiz_num w
  = (Returned (located t quiz_folder quiz_num [1; 2; 3]%N),
     World t (mergers w)
       (stdout w ++ warnings_of WS t quiz_folder quiz_num [1; 2; 3]%N))
  /\ forall part_num,
       let dot :=
         quiz_folder
           ++ ["Quiz" +++ Str.of_N quiz_num +++ "." +++ Str.of_N part_num
                 +++ ".pdf"] in
       let comma :=
         quiz_folder
           ++ ["Quiz" +++ Str.of_N quiz_num +++ "," +++ Str.of_N part_num
                 +++ ".pdf"] in
       let chosen := locate t quiz_folder quiz_num part_num in
       (FS.exists_ t dot = true -> chosen = Some dot)
       /\ (FS.exists_ t dot = false -> FS.exists_ t comma = true ->
           chosen = Some comma)
       /\ (FS.exists_ t dot = false -> FS.exists_ t comma = false ->
           match chosen with
           | Some file =>
               exists before after,
                 children t quiz_folder = before ++ file :: after
                 /\ loose_match quiz_num part_num file = true
                 /\ Forall (fun f => loose_match quiz_num part_num f = false)
                      before
           | None =>
               Forall (fun f => loose_match quiz_num part_num f = false)
                 (children t quiz_folder)
           end).
Proof.
  intros Hd t. split; [now apply find_quiz_parts_eq |].
  intros part_num dot comma chosen. subst dot comma chosen.
  unfold locate, exact_names. cbn [find].
  repeat split.
  - intros ->. reflexivity.
  - intros -> ->. reflexivity.
  - intros -> ->. apply find_loose_first.
Qed.

(** With Quiz6,1.pdf, Quiz6,2.pdf and Quiz6,3.pdf in the folder, the three
    parts are returned in the order 1, 2, 3 and nothing is printed. *)
Lemma find_quiz_parts_spec_witness :
  let t := Dir [("S", Dir [("Quiz6",
             Dir [("Quiz6,3.pdf", File (Pdf [3])); ("Quiz6,1.pdf", File (Pdf [1]));
                  ("Quiz6,2.pdf", File (Pdf [2]))])])] in
  find_quiz_parts "/ws" ["S"; "Quiz6"] 6 (World t [] [])
  = (Returned [["S"; "Quiz6"; "Quiz6,1.pdf"]; ["S"; "Quiz6"; "Quiz6,2.pdf"];
               ["S"; "Quiz6"; "Quiz6,3.pdf"]],
     World t [] []).
Proof.
  intros t.
  destruct (find_quiz_parts_spec "/ws" ["S"; "Quiz6"] 6 (World t [] []) eq_refl)
    as [H _].
  rewrite H. vm_compute. reflexivity.
Defined.

(** ** The file system *)

Module FSFacts.
Import FS.

Lemma assoc_set_same x v es : assoc x (set_entry x v es) = Some v.
Proof.
  induction es as [| [y u] es IH]; simpl.
  - now rewrite String.eqb_refl.
  - destruct (String.eqb y x) eqn:E; simpl; rewrite E; auto.
Qed.

Lemma assoc_set_other x y v es :
  x <> y -> assoc y (set_entry x v es) = assoc y es.
Proof.
  intros Hxy. induction es as [| [z u] es IH]; simpl.
  - destruct (String.eqb_spec x y); [contradiction | reflexivity].
  - destruct (String.eqb_spec z x) as [-> | Hzx]; simpl.
    + destruct (String.eqb_spec x y); [contradiction | reflexivity].
    + now rewrite IH.
Qed.

Lemma set_entry_set x v u es :
  set_entry x v (set_entry x u es) = set_entry x v es.
Proof.
  induction es as [| [y w] es IH]; simpl.
  - now rewrite String.eqb_refl.
  - destruct (String.eqb y x) eqn:E; simpl; rewrite E; congruence.
Qed.

Lemma set_entry_id x v es : assoc x es = Some v -> set_entry x v es = es.
Proof.
  induction es as [| [y w] es IH]; simpl; [discriminate |].
  destruct (String.eqb y x); intros H.
  - now inversion H.
  - now rewrite IH.
Qed.

Lemma set_entry_comm x y v u es :
  x <> y -> assoc x es <> None ->
  set_entry x v (set_entry y u es) = set_entry y u (set_entry x v es).
Proof.
  intros Hxy. induction es as [| [z w] es IH]; simpl; [congruence |].
  destruct (String.eqb_spec z x) as [Hzx | Hzx];
    destruct (String.eqb_spec z y) as [Hzy | Hzy]; simpl; intros Hx.
  - congruence.
  - destruct (String.eqb_spec z x); [| contradiction].
    destruct (String.eqb_spec z y); [contradiction | reflexivity].
  - destruct (String.eqb_spec z x); [contradiction |].
    destruct (String.eqb_spec z y); [reflexivity | contradiction].
  - destruct (String.eqb_spec z x); [contradiction |].
    destruct (String.eqb_spec z y); [contradiction |].
    now rewrite IH.
Qed.

Lemma set_entry_names x v es :
  assoc x es <> None -> map fst (set_entry x v es) = map fst es.
Proof.
  induction es as [| [y w] es IH]; simpl; [congruence |].
  destruct (String.eqb y x); simpl; intros H; [reflexivity |].
  now rewrite IH.
Qed.

Lemma lookup_opt_cons es x p :
  lookup (Dir es) (x :: p) = lookup_opt (assoc x es) p.
Proof. simpl. now destruct (assoc x es). Qed.

Lemma lookup_opt_none p : lookup_opt None p = None.
Proof. reflexivity. Qed.

Lemma lookup_app t p q : lookup t (p ++ q) = lookup_opt (lookup t p) q.
Proof.
  revert t. induction p as [| x p IH]; intros t; simpl; [reflexivity |].
  destruct t as [c | es]; [reflexivity |].
  destruct (assoc x es); [apply IH | reflexivity].
Qed.

(** What [update] leaves at the place it works on. *)
Lemma update_at mk f :
  forall p o t',
    update mk f o p = inr t' ->
    exists v, f (lookup_opt o p) = inr v /\ lookup t' p = Some v.
Proof.
  induction p as [| x p IH]; intros o t' H; simpl in H.
  - exists t'. split; [| reflexivity]. now destruct o.
  - destruct o as [[c | es] |]; try discriminate.
    + destruct (update mk f (assoc x es) p) as [e | c] eqn:Hu; [discriminate |].
      inversion H; subst t'; clear H.
      apply IH in Hu as (v & Hf & Hl). exists v.
      rewrite !lookup_opt_cons, assoc_set_same. simpl. auto.
    + destruct mk; [| discriminate].
      destruct (update true f None p) as [e | c] eqn:Hu; [discriminate |].
      inversion H; subst t'; clear H.
      apply IH in Hu as (v & Hf & Hl). exists v.
      rewrite lookup_opt_cons. simpl. rewrite String.eqb_refl. simpl. auto.
Qed.

Lemma mkdir_at_shallow : shallow mkdir_at.
Proof.
  intros [[c | es] |] v y r H; simpl in H; inversion H; reflexivity.
Qed.

Lemma write_at_shallow c : shallow (write_at c).
Proof.
  intros [[c' | es] |] v y r H; simpl in H; inversion H; reflexivity.
Qed.

(** Places that are not on the way to [p] hold what they held. *)
Lemma update_off mk f :
  shallow f ->
  forall p o t' q,
    update mk f o p = inr t' ->
    is_prefix q p = false ->
    lookup t' q = lookup_opt o q.
Proof.
  intros Hf. induction p as [| x p IH]; intros o t' q H Hq; simpl in H.
  - destruct q as [| y q]; [discriminate |]. now apply Hf.
  - destruct q as [| y q]; [discriminate |]. simpl in Hq.
    destruct o as [[c | es] |]; cbn [lookup_opt] in *; try discriminate.
    + destruct (update mk f (assoc x es) p) as [e | c] eqn:Hu; [discriminate |].
      inversion H; subst t'; clear H.
      rewrite !lookup_opt_cons.
      destruct (String.eqb_spec y x) as [-> | Hyx].
      * rewrite assoc_set_same. simpl. now apply (IH _ _ _ Hu).
      * rewrite assoc_set_other by congruence. reflexivity.
    + destruct mk; [| discriminate].
      destruct (update true f None p) as [e | c] eqn:Hu; [discriminate |].
      inversion H; subst t'; clear H.
      rewrite lookup_opt_cons. simpl.
      destruct (String.eqb_spec x y) as [-> | Hxy]; [| reflexivity].
      rewrite String.eqb_refl in Hq. simpl.
      now rewrite (IH _ _ _ Hu).
Qed.

(** The places on the way to [p] are directories afterwards, and held no
    file before. *)
Lemma update_on mk f :
  forall p o t' q,
    update mk f o p = inr t' ->
    is_prefix q p = true ->
    q <> p ->
    kind_of (lookup t' q) = KDir /\ kind_of (lookup_opt o q) <> KFile.
Proof.
  induction p as [| x p IH]; intros o t' q H Hq Hne; simpl in H.
  - destruct q; [congruence | discriminate].
  - destruct o as [[c | es] |]; try discriminate.
    + destruct (update mk f (assoc x es) p) as [e | c] eqn:Hu; [discriminate |].
      inversion H; subst t'; clear H.
      destruct q as [| y q]; [simpl; split; congruence |].
      simpl in Hq. apply andb_prop in Hq as [Hy Hq].
      apply String.eqb_eq in Hy. subst y.
      cbn [lookup_opt]. rewrite !lookup_opt_cons, assoc_set_same.
      apply (IH _ _ _ Hu Hq). congruence.
    + destruct mk; [| discriminate].
      destruct (update true f None p) as [e | c] eqn:Hu; [discriminate |].
      inversion H; subst t'; clear H.
      destruct q as [| y q]; [simpl; split; congruence |].
      simpl in Hq. apply andb_prop in Hq as [Hy Hq].
      apply String.eqb_eq in Hy. subst y.
      rewrite lookup_opt_cons. simpl. rewrite String.eqb_refl.
      split; [| discriminate].
      apply (IH _ _ _ Hu Hq). congruence.
Qed.

(** Places under another first component are not touched at all. *)
Lemma update_frame mk f x p es t' y q :
  update mk f (Some (Dir es)) (x :: p) = inr t' ->
  x <> y ->
  lookup t' (y :: q) = lookup (Dir es) (y :: q).
Proof.
  simpl. intros H Hxy.
  destruct (update mk f (assoc x es) p) as [e | c]; [discriminate |].
  inversion H; subst t'; clear H.
  simpl. now rewrite assoc_set_other.
Qed.

End FSFacts.

(** ** merge_pdfs *)

Lemma update_nth_last {A} (f : A -> A) (h : list A) (m : A) :
  update_nth (List.length h) f (h ++ [m]) = h ++ [f m].
Proof. induction h as [| x h IH]; simpl; congruence. Qed.

Lemma nth_last {A} (h : list A) (m d : A) : nth (List.length h) (h ++ [m]) d = m.
Proof. induction h as [| x h IH]; simpl; auto. Qed.

Lemma for_each_append (pdf_paths : list path) :
  forall w h m,
    mergers w = h ++ [m] ->
    for_each pdf_paths
      (fun pdf_path => PdfMerger_append (List.length h) pdf_path) w
    = (match snd (append_all (fs w) pdf_paths m) with
       | None => Returned tt
       | Some e => Raised e
       end,
       World (fs w) (h ++ [fst (append_all (fs w) pdf_paths m)]) (stdout w)).
Proof.
  induction pdf_paths as [| p rest IH]; intros w h m Hm.
  - simpl. unfold ret. rewrite <- Hm. now destruct w.
  - cbn [for_each append_all]. unfold bind, PdfMerger_append at 1, read_pdf.
    destruct (FS.lookup (fs w) p) as [[[pgs | b] | es] |];
      try (cbn [fst snd]; rewrite <- Hm; now destruct w).
    rewrite Hm, update_nth_last.
    erewrite IH by reflexivity. reflexivity.
Qed.

Section Merge.
Variable WS : string.

(** What a call of [merge_pdfs] does, case by case. *)
Lemma merge_pdfs_eq (pdf_paths : list path) (output : path) (w : world) :
  pdf_paths <> [] ->
  merge_pdfs WS pdf_paths output w
  = let m := fst (append_all (fs w) pdf_paths (mkMerger [] [])) in
    match snd (append_all (fs w) pdf_paths (mkMerger [] [])) with
    | Some e =>
        (Returned false,
         World (fs w) (mergers w ++ [m]) (stdout w ++ [error_line WS e]))
    | None =>
        match FS.mkdir_parents (fs w) (FS.parent output) with
        | inl en =>
            (Returned false,
             World (fs w) (mergers w ++ [m])
               (stdout w ++ [error_line WS (OSError en (FS.parent output))]))
        | inr t1 =>
            match FS.write_file t1 output (Pdf (pages m)) with
            | inl en =>
                (Returned false,
                 World t1 (mergers w ++ [m])
                   (stdout w ++ [error_line WS (OSError en output)]))
            | inr t2 =>
                (Returned true,
                 World t2 (mergers w ++ [mkMerger [] []]) (stdout w))
            end
        end
    end.
Proof.
  intros Hne. destruct pdf_paths as [| p0 rest]; [contradiction |].
  unfold merge_pdfs. generalize dependent (p0 :: rest). intros ps _.
  unfold try_except, bind at 1, PdfMerger_new at 1.
  unfold bind at 1.
  rewrite (for_each_append ps _ (mergers w) (mkMerger [] [])) by reflexivity.
  cbn [fs mergers stdout].
  destruct (append_all (fs w) ps (mkMerger [] [])) as [m [e |]]; cbn [fst snd].
  - reflexivity.
  - unfold bind at 1, mkdir_parents at 1. cbn [fs mergers stdout].
    destruct (FS.mkdir_parents (fs w) (FS.parent output)) as [en | t1];
      [reflexivity |].
    unfold bind at 1, PdfMerger_write at 1. cbn [fs mergers stdout].
    rewrite nth_last.
    destruct (FS.write_file t1 output (Pdf (pages m))) as [en | t2];
      [reflexivity |].
    unfold bind, PdfMerger_close, ret. cbn [fs mergers stdout].
    now rewrite update_nth_last.
Qed.

End Merge.

Lemma append_all_inv (t : node) (pdf_paths : list path) :
  forall m,
    match snd (append_all t pdf_paths m) with
    | None =>
        exists pgs,
          all_pages t pdf_paths = Some pgs
          /\ fst (append_all t pdf_paths m)
             = mkMerger (inputs m ++ pdf_paths) (pages m ++ pgs)
    | Some e => all_pages t pdf_paths = None
    end.
Proof.
  induction pdf_paths as [| p rest IH]; intros m; cbn [append_all all_pages].
  - exists []. rewrite !app_nil_r. split; [reflexivity | now destruct m].
  - destruct (read_pdf t p) as [e | pgs]; [reflexivity |].
    specialize (IH (mkMerger (inputs m ++ [p]) (pages m ++ pgs))).
    destruct (snd (append_all t rest _)).
    + now rewrite IH.
    + destruct IH as (more & -> & ->). exists (pgs ++ more).
      cbn [inputs pages]. now rewrite <- !app_assoc.
Qed.

Lemma is_prefix_parent (p : path) : FS.is_prefix (FS.parent p) p = true.
Proof.
  unfold FS.parent. induction p as [| x [| y p] IH]; simpl in *; auto.
  rewrite String.eqb_refl. exact IH.
Qed.

Lemma parent_neq (p : path) : p <> [] -> FS.parent p <> p.
Proof.
  unfold FS.parent. intros Hne H.
  apply (f_equal (@List.length string)) in H.
  pose proof (app_removelast_last "" Hne) as Hs.
  apply (f_equal (@List.length string)) in Hs.
  rewrite length_app in Hs. simpl in Hs. lia.
Qed.

(** After a successful [mkdir] the directory is there. *)
Lemma mkdir_parents_done (t t' : node) (p : path) :
  FS.mkdir_parents t p = inr t' -> FS.is_dir t' p = true.
Proof.
  unfold FS.mkdir_parents. intros H.
  pose proof (FSFacts.update_at _ _ _ _ _ H) as (v & Hf & Hl).
  unfold FS.is_dir. rewrite Hl.
  unfold FS.mkdir_at in Hf.
  destruct (FS.lookup_opt (Some t) p) as [[c' | es] |];
    now inversion Hf.
Qed.

(** After a successful write the file is there and its folder is a
    directory. *)
Lemma write_file_done (t t' : node) (p : path) (c : content) :
  FS.is_dir t (FS.parent p) = true ->
  FS.write_file t p c = inr t' ->
  FS.lookup t' p = Some (File c) /\ FS.is_dir t' (FS.parent p) = true.
Proof.
  unfold FS.write_file. intros Hd H.
  pose proof (FSFacts.update_at _ _ _ _ _ H) as (v & Hf & Hl).
  assert (v = File c) as ->.
  { unfold FS.write_at in Hf.
    destruct (FS.lookup_opt (Some t) p) as [[c' | es] |];
      now inversion Hf. }
  split; [exact Hl |].
  assert (Hne : p <> []).
  { intros ->. unfold FS.is_dir in Hd. simpl in H, Hd.
    destruct t; discriminate. }
  destruct (FSFacts.update_on _ _ _ _ _ (FS.parent p) H
              (is_prefix_parent p) (parent_neq p Hne)) as [Hk _].
  unfold FS.is_dir.
  destruct (FS.lookup t' (FS.parent p)) as [[c' | es] |]; simpl in Hk;
    congruence.
Qed.

(** C6: [merge_pdfs] returns a boolean and no exception leaves it.  On the
    empty list it returns [False] and the world is as it was.  When it
    returns [False] on a non-empty list, an exception was raised by an
    append, by the creation of the output folder or by the write, and its
    message was printed.  When it returns [True] every input was a
    readable PDF, the folder of the output path is a directory, the output
    path holds the pages of the inputs in the order of the list, whatever
    it held before, and nothing was printed. *)
Theorem merge_pdfs_spec (WS : string) (pdf_paths : list path) (output : path)
    (w : world) :
  exists b w',
    merge_pdfs WS pdf_paths output w = (Returned b, w')
    /\ (pdf_paths = [] -> b = false /\ w' = w)
    /\ (pdf_paths <> [] -> b = false ->
        exists e,
          stdout w' = stdout w ++ ["  Error merging PDFs: " +++ str_exn WS e]
          /\ (snd (append_all (fs w) pdf_paths (mkMerger [] [])) = Some e
              \/ (exists en,
                    e = OSError en (FS.parent output)
                    /\ FS.mkdir_parents (fs w) (FS.parent output) = inl en)
              \/ (exists en t1,
                    e = OSError en output
                    /\ FS.mkdir_parents (fs w) (FS.parent output) = inr t1
                    /\ FS.write_file t1 output
                         (Pdf (pages (fst (append_all (fs w) pdf_paths
                                             (mkMerger [] [])))))
                       = inl en)))
    /\ (b = true ->
        pdf_paths <> []
        /\ stdout w' = stdout w
        /\ FS.is_dir (fs w') (FS.parent output) = true
        /\ exists pgs,
             all_pages (fs w) pdf_paths = Some pgs
             /\ FS.lookup (fs w') output = Some (File (Pdf pgs))).
Proof.
  destruct pdf_paths as [| p0 rest].
  - exists false, w. repeat split; try congruence; try discriminate.
  - set (ps := p0 :: rest). assert (Hne : ps <> []) by discriminate.
    rewrite (merge_pdfs_eq WS ps output w Hne). cbv zeta.
    pose proof (append_all_inv (fs w) ps (mkMerger [] [])) as Hinv.
    destruct (snd (append_all (fs w) ps (mkMerger [] []))) as [e |] eqn:Hsnd.
    { eexists _, _. split; [reflexivity |].
      repeat split; try discriminate. intros _ _. exists e. auto. }
    destruct Hinv as (pgs & Hall & Hm).
    destruct (FS.mkdir_parents (fs w) (FS.parent output)) as [en | t1] eqn:Hmk.
    { eexists _, _. split; [reflexivity |].
      repeat split; try discriminate. intros _ _.
      exists (OSError en (FS.parent output)). split; [reflexivity |].
      right; left. eauto. }
    destruct (FS.write_file t1 output _) as [en | t2] eqn:Hwr.
    { eexists _, _. split; [reflexivity |].
      repeat split; try discriminate. intros _ _.
      exists (OSError en output). split; [reflexivity |].
      right; right. eauto. }
    eexists _, _. split; [reflexivity |].
    repeat split; try discriminate; try assumption.
    + apply (write_file_done _ _ _ _ (mkdir_parents_done _ _ _ Hmk) Hwr).
    + exists pgs. split; [exact Hall |]. cbn [fs].
      rewrite Hm in Hwr. cbn [pages app] in Hwr.
      apply (write_file_done _ _ _ _ (mkdir_parents_done _ _ _ Hmk) Hwr).
Qed.

(** Three one-page parts merged into a folder that does not exist yet. *)
Lemma merge_pdfs_spec_witness :
  let t := Dir [("S", Dir [("a.pdf", File (Pdf [1])); ("b.pdf", File (Pdf [2]));
                           ("c.pdf", File (Pdf [3]))])] in
  exists w',
    merge_pdfs "/ws" [["S"; "a.pdf"]; ["S"; "b.pdf"]; ["S"; "c.pdf"]]
      ["Quizzes"; "Quiz 3"; "quiz_3_2022_fall.pdf"] (World t [] [])
    = (Returned true, w')
    /\ FS.is_dir (fs w') ["Quizzes"; "Quiz 3"] = true
    /\ FS.lookup (fs w') ["Quizzes"; "Quiz 3"; "quiz_3_2022_fall.pdf"]
       = Some (File (Pdf [1; 2; 3])).
Proof.
  intros t.
  destruct (merge_pdfs_spec "/ws"
              [["S"; "a.pdf"]; ["S"; "b.pdf"]; ["S"; "c.pdf"]]
              ["Quizzes"; "Quiz 3"; "quiz_3_2022_fall.pdf"] (World t [] []))
    as (b & w' & Heq & _ & _ & Hok).
  assert (Hb : b = true).
  { vm_compute in Heq. now inversion Heq. }
  subst b. exists w'. split; [exact Heq |].
  destruct (Hok eq_refl) as (_ & _ & Hdir & pgs & Hall & Hl).
  split; [exact Hdir |].
  vm_compute in Hall. inversion Hall; subst pgs. exact Hl.
Defined.

(** A merge that returns [True] has closed its merge object: the streams
    held open are the ones that were open before the call. *)
Lemma merge_pdfs_closes_on_success (WS : string) (pdf_paths : list path)
    (output : path) (w w' : world) :
  merge_pdfs WS pdf_paths output w = (Returned true, w') ->
  open_streams w' = open_streams w.
Proof.
  destruct pdf_paths as [| p0 rest]; [discriminate |].
  rewrite merge_pdfs_eq by discriminate. cbv zeta.
  destruct (snd (append_all _ _ _)); [discriminate |].
  destruct (FS.mkdir_parents _ _); [discriminate |].
  destruct (FS.write_file _ _ _); [discriminate |].
  intros H. inversion H; subst w'; clear H.
  unfold open_streams. cbn [mergers].
  rewrite map_app, concat_app. simpl. now rewrite app_nil_r.
Qed.

(** C7 fails on the code: when the second input is not a PDF, [merge_pdfs]
    returns [False] and the merge object it built still holds the stream
    of the first input; [close] is only reached when every step
    succeeded. *)
Theorem merge_pdfs_leaks_on_failure :
  let t := Dir [("S", Dir [("a.pdf", File (Pdf [1]));
                           ("b.pdf", File (Data "not a pdf"))])] in
  exists w',
    merge_pdfs "/ws" [["S"; "a.pdf"]; ["S"; "b.pdf"]]
      ["Quizzes"; "Quiz 1"; "quiz_1_2021_fall.pdf"] (World t [] [])
    = (Returned false, w')
    /\ open_streams (World t [] []) = []
    /\ open_streams w' = [["S"; "a.pdf"]].
Proof.
  intros t. eexists. split; [vm_compute; reflexivity |].
  split; reflexivity.
Qed.

(** ** One quiz *)

Section Quiz.
Variable WS : string.

(** Outside a directory the part locator raises. *)
Lemma find_quiz_parts_not_dir (quiz_folder : path) (quiz_num : N) (w : world) :
  FS.is_dir (fs w) quiz_folder = false ->
  exists e, find_quiz_parts WS quiz_folder quiz_num w = (Raised e, w).
Proof.
  intros Hd.
  assert (Hex : forall nm, FS.exists_ (fs w) (quiz_folder ++ [nm]) = false).
  { intros nm. unfold FS.exists_, FS.is_dir in *.
    rewrite FSFacts.lookup_app.
    destruct (FS.lookup (fs w) quiz_folder) as [[c | es] |];
      try discriminate; reflexivity. }
  unfold find_quiz_parts. cbn [find_parts_loop].
  unfold bind at 1, find_part at 1, bind at 1.
  rewrite find_exact_eq. cbn [find]. rewrite !Hex. cbn [option_map].
  unfold bind at 1, iterdir at 1. unfold FS.is_dir in Hd.
  destruct (FS.lookup (fs w) quiz_folder) as [[c | es] |];
    try discriminate; eauto.
Qed.

Lemma find_quiz_parts_returns (quiz_folder : path) (quiz_num : N)
    (w w1 : world) (parts : list path) :
  find_quiz_parts WS quiz_folder quiz_num w = (Returned parts, w1) ->
  FS.is_dir (fs w) quiz_folder = true
  /\ parts = located (fs w) quiz_folder quiz_num [1; 2; 3]%N
  /\ w1 = World (fs w) (mergers w)
            (stdout w ++ warnings_of WS (fs w) quiz_folder quiz_num [1; 2; 3]%N).
Proof.
  intros H. destruct (FS.is_dir (fs w) quiz_folder) eqn:Hd.
  - rewrite find_quiz_parts_eq in H by exact Hd.
    inversion H. auto.
  - destruct (find_quiz_parts_not_dir quiz_folder quiz_num w Hd) as (e & He).
    congruence.
Qed.

(** C5: when the part locator returns fewer than three parts for a quiz,
    the orchestrator adds one to the error counter, leaves the merged
    counter, the file system and the merge objects as they are, prints the
    skip line and goes on with the next quiz; the number of merge objects
    grows by one exactly when three parts were located, so [merge_pdfs] is
    only called for such quizzes. *)
Theorem process_quiz_incomplete (season year : string) (quiz_num : N)
    (quiz_folder : path) (total_merged total_errors : nat)
    (w w1 : world) (parts : list path) :
  find_quiz_parts WS quiz_folder quiz_num w = (Returned parts, w1) ->
  (List.length parts < 3 ->
   let w' := World (fs w) (mergers w)
               (stdout w1 ++ [skip_line quiz_num (List.length parts)]) in
   process_quiz WS season year quiz_num quiz_folder
     (total_merged, total_errors) w
   = (Returned (total_merged, total_errors + 1), w')
   /\ forall rest,
        process_quizzes WS season year ((quiz_num, quiz_folder) :: rest)
          (total_merged, total_errors) w
        = process_quizzes WS season year rest
            (total_merged, total_errors + 1) w')
  /\ (forall counts w',
        process_quiz WS season year quiz_num quiz_folder
          (total_merged, total_errors) w
        = (Returned counts, w') ->
        List.length (mergers w')
        = List.length (mergers w)
          + (if List.length parts =? 3 then 1 else 0)).
Proof.
  intros Hfind.
  destruct (find_quiz_parts_returns _ _ _ _ _ Hfind) as (Hd & Hparts & Hw1).
  split.
  - intros Hlt w'.
    assert (Hpq : process_quiz WS season year quiz_num quiz_folder
                    (total_merged, total_errors) w
                  = (Returned (total_merged, total_errors + 1), w')).
    { unfold process_quiz, bind at 1. rewrite Hfind.
      destruct (Nat.eqb_spec (List.length parts) 3) as [E | _]; [lia |].
      cbn [negb]. unfold bind, print, ret. subst w' w1. reflexivity. }
    split; [exact Hpq |].
    intros rest. cbn [process_quizzes]. unfold bind at 1. now rewrite Hpq.
  - intros counts w'. unfold process_quiz, bind at 1. rewrite Hfind.
    destruct (Nat.eqb_spec (List.length parts) 3) as [E | NE]; cbn [negb].
    + unfold bind at 1.
      assert (Hne : parts <> []) by (intros ->; discriminate).
      rewrite merge_pdfs_eq by exact Hne. cbv zeta. subst w1.
      cbn [fs mergers stdout].
      destruct (snd (append_all _ _ _));
        [| destruct (FS.mkdir_parents _ _);
           [| destruct (FS.write_file _ _ _)]];
        unfold bind, print, ret; intros H; inversion H; subst w';
        cbn [mergers]; rewrite length_app; reflexivity.
    + unfold bind, print, ret. intros H. inversion H; subst w' w1.
      cbn [mergers]. lia.
Qed.

End Quiz.

(** What a merge that returns [True] has done. *)
Lemma merge_pdfs_true (WS : string) (pdf_paths : list path) (output : path)
    (w w' : world) :
  merge_pdfs WS pdf_paths output w = (Returned true, w') ->
  exists pgs t1,
    all_pages (fs w) pdf_paths = Some pgs
    /\ FS.mkdir_parents (fs w) (FS.parent output) = inr t1
    /\ FS.write_file t1 output (Pdf pgs) = inr (fs w')
    /\ stdout w' = stdout w.
Proof.
  destruct pdf_paths as [| p0 rest]; [discriminate |].
  rewrite merge_pdfs_eq by discriminate. cbv zeta.
  pose proof (append_all_inv (fs w) (p0 :: rest) (mkMerger [] [])) as Hinv.
  destruct (snd (append_all _ _ _)); [discriminate |].
  destruct Hinv as (pgs & Hall & Hm). rewrite Hm. cbn [pages app].
  destruct (FS.mkdir_parents _ _) as [en | t1]; [discriminate |].
  destruct (FS.write_file _ _ _) as [en | t2] eqn:Hwr; [discriminate |].
  intros H. inversion H; subst w'; clear H.
  exists pgs, t1. auto.
Qed.

Section Merged.
Variable WS : string.

(** C1: when the orchestrator counts a quiz as merged, the part locator
    had returned three files, each a readable PDF, and afterwards the
    path OUTPUT_DIR/"Quiz N"/"quiz_N_year_season.pdf" holds the pages of
    the first, then of the second, then of the third; their number is the
    sum of the three page counts.  For quiz 3 of fall 2022 the path is
    Quizzes/Quiz 3/quiz_3_2022_fall.pdf. *)
Theorem process_quiz_merged (season year : string) (quiz_num : N)
    (quiz_folder : path) (total_merged total_errors : nat)
    (w w' : world) (counts : nat * nat) :
  process_quiz WS season year quiz_num quiz_folder
    (total_merged, total_errors) w
  = (Returned counts, w') ->
  fst counts = total_merged + 1 ->
  (exists f1 f2 f3 p1 p2 p3,
     fst (find_quiz_parts WS quiz_folder quiz_num w) = Returned [f1; f2; f3]
     /\ FS.lookup (fs w) f1 = Some (File (Pdf p1))
     /\ FS.lookup (fs w) f2 = Some (File (Pdf p2))
     /\ FS.lookup (fs w) f3 = Some (File (Pdf p3))
     /\ FS.lookup (fs w')
          (OUTPUT_DIR
             ++ ["Quiz " +++ Str.of_N quiz_num]
             ++ ["quiz_" +++ Str.of_N quiz_num +++ "_" +++ year +++ "_"
                   +++ season +++ ".pdf"])
        = Some (File (Pdf (p1 ++ p2 ++ p3)))
     /\ List.length (p1 ++ p2 ++ p3)
        = List.length p1 + List.length p2 + List.length p3)
  /\ String.concat "/" (output_path 3 "2022" "fall")
     = "Quizzes/Quiz 3/quiz_3_2022_fall.pdf".
Proof.
  intros Hpq Hcount. split; [| reflexivity].
  unfold process_quiz, bind at 1 in Hpq.
  destruct (find_quiz_parts WS quiz_folder quiz_num w) as [[parts | e] w1]
    eqn:Hfind; [| discriminate].
  destruct (find_quiz_parts_returns _ _ _ _ _ _ Hfind) as (Hd & Hparts & Hw1).
  destruct (Nat.eqb_spec (List.length parts) 3) as [Hlen | _]; cbn [negb] in Hpq.
  2:{ unfold bind, print, ret in Hpq. inversion Hpq; subst counts.
      simpl in Hcount. lia. }
  unfold bind at 1 in Hpq.
  destruct (merge_pdfs WS parts (output_path quiz_num year season) w1)
    as [[[|] | e] w2] eqn:Hmerge.
  - unfold bind, print, ret in Hpq. inversion Hpq; subst counts w'; clear Hpq.
    apply merge_pdfs_true in Hmerge as (pgs & t1 & Hall & Hmk & Hwr & _).
    destruct parts as [| f1 [| f2 [| f3 [| f4 parts]]]]; try discriminate.
    exists f1, f2, f3. subst w1. cbn [fs] in *.
    cbn [all_pages] in Hall. unfold read_pdf in Hall.
    destruct (FS.lookup (fs w) f1) as [[[p1 | b1] | es1] |]; try discriminate.
    destruct (FS.lookup (fs w) f2) as [[[p2 | b2] | es2] |]; try discriminate.
    destruct (FS.lookup (fs w) f3) as [[[p3 | b3] | es3] |]; try discriminate.
    inversion Hall; subst pgs; clear Hall. rewrite app_nil_r in Hwr.
    exists p1, p2, p3. repeat split; try reflexivity.
    + apply (write_file_done _ _ _ _ (mkdir_parents_done _ _ _ Hmk) Hwr).
    + rewrite !length_app. lia.
  - unfold bind, print, ret in Hpq. inversion Hpq; subst counts.
    simpl in Hcount. lia.
  - discriminate.
Qed.

End Merged.

(** Quiz 3 of fall 2022: three one-page parts end up, in order, in
    Quizzes/Quiz 3/quiz_3_2022_fall.pdf. *)
Lemma process_quiz_merged_witness :
  exists w',
    process_quiz "/ws" "fall" "2022" 3 ["Quizzes-Fall-2022"; "Quiz3"] (0, 0)
      (World sample_tree [] [])
    = (Returned (1, 0), w')
    /\ FS.lookup (fs w') ["Quizzes"; "Quiz 3"; "quiz_3_2022_fall.pdf"]
       = Some (File (Pdf [1; 2; 3])).
Proof.
  pose (w' := snd (process_quiz "/ws" "fall" "2022" 3
                     ["Quizzes-Fall-2022"; "Quiz3"] (0, 0)
                     (World sample_tree [] []))).
  assert (H : process_quiz "/ws" "fall" "2022" 3
                ["Quizzes-Fall-2022"; "Quiz3"] (0, 0) (World sample_tree [] [])
              = (Returned (1, 0), w')) by (vm_compute; reflexivity).
  exists w'. split; [exact H |].
  destruct (process_quiz_merged "/ws" _ _ _ _ _ _ _ _ _ H eq_refl)
    as [(f1 & f2 & f3 & p1 & p2 & p3 & Hf & H1 & H2 & H3 & Hout & _) _].
  vm_compute in Hf. inversion Hf; subst f1 f2 f3; clear Hf.
  vm_compute in H1, H2, H3.
  inversion H1; inversion H2; inversion H3; subst p1 p2 p3.
  exact Hout.
Defined.

(** Quiz 2 of the sample has two parts: it is skipped and counted as an
    error, and the next quiz is processed from the same file system. *)
Lemma process_quiz_incomplete_witness :
  exists w1 w',
    find_quiz_parts "/ws" ["Quizzes-Fall-2022"; "Quiz2"] 2
      (World sample_tree [] [])
    = (Returned [["Quizzes-Fall-2022"; "Quiz2"; "Quiz2.1.pdf"];
                 ["Quizzes-Fall-2022"; "Quiz2"; "Quiz2.3.pdf"]], w1)
    /\ process_quiz "/ws" "fall" "2022" 2 ["Quizzes-Fall-2022"; "Quiz2"] (0, 0)
         (World sample_tree [] [])
       = (Returned (0, 1), w')
    /\ fs w' = sample_tree
    /\ mergers w' = [].
Proof.
  pose (w1 := snd (find_quiz_parts "/ws" ["Quizzes-Fall-2022"; "Quiz2"] 2
                     (World sample_tree [] []))).
  assert (H : find_quiz_parts "/ws" ["Quizzes-Fall-2022"; "Quiz2"] 2
                (World sample_tree [] [])
              = (Returned [["Quizzes-Fall-2022"; "Quiz2"; "Quiz2.1.pdf"];
                           ["Quizzes-Fall-2022"; "Quiz2"; "Quiz2.3.pdf"]], w1))
    by (vm_compute; reflexivity).
  destruct (process_quiz_incomplete "/ws" "fall" "2022" 2
              ["Quizzes-Fall-2022"; "Quiz2"] 0 0 _ _ _ H) as [Hskip _].
  assert (Hlt : 2 < 3) by lia.
  destruct (Hskip Hlt) as [Hpq _].
  eexists w1, _. split; [exact H |]. split; [exact Hpq |].
  split; reflexivity.
Defined.

(** ** Traces *)

Module TraceFacts.
Import FS FSFacts.

Lemma path_eq_dec (p q : path) : {p = q} + {p <> q}.
Proof. apply list_eq_dec, string_dec. Qed.

Lemma is_prefix_refl p : is_prefix p p = true.
Proof. induction p; simpl; [| rewrite String.eqb_refl]; auto. Qed.

Lemma is_prefix_length p q : is_prefix p q = true -> List.length p <= List.length q.
Proof.
  revert q. induction p as [| x p IH]; intros [| y q] H; simpl in *;
    try lia; try discriminate.
  apply andb_prop in H as [_ H]. apply IH in H. lia.
Qed.

Lemma is_prefix_same_length p q :
  is_prefix p q = true -> List.length p = List.length q -> p = q.
Proof.
  revert q. induction p as [| x p IH]; intros [| y q] H Hl; simpl in *;
    try discriminate; auto.
  apply andb_prop in H as [Hx H]. apply String.eqb_eq in Hx.
  f_equal; auto.
Qed.

Lemma apply_op_off o s s' q :
  apply_op o s = Some s' ->
  is_prefix q (target o) = false ->
  lookup s' q = lookup s q.
Proof.
  destruct o as [p | p c]; simpl; intros H Hq.
  - destruct (mkdir_parents s p) as [e | t] eqn:Hu; inversion H; subst t.
    apply (update_off _ _ mkdir_at_shallow _ _ _ _ Hu Hq).
  - destruct (write_file s p c) as [e | t] eqn:Hu; inversion H; subst t.
    apply (update_off _ _ (write_at_shallow c) _ _ _ _ Hu Hq).
Qed.

Lemma apply_op_on o s s' q :
  apply_op o s = Some s' ->
  is_prefix q (target o) = true ->
  q <> target o ->
  kind_at s' q = KDir /\ kind_at s q <> KFile.
Proof.
  destruct o as [p | p c]; simpl; intros H Hq Hne.
  - destruct (mkdir_parents s p) as [e | t] eqn:Hu; inversion H; subst t.
    apply (update_on _ _ _ _ _ _ Hu Hq Hne).
  - destruct (write_file s p c) as [e | t] eqn:Hu; inversion H; subst t.
    apply (update_on _ _ _ _ _ _ Hu Hq Hne).
Qed.

Lemma apply_op_at o s s' :
  apply_op o s = Some s' ->
  match o with
  | Mk q => kind_at s' q = KDir /\ kind_at s q <> KFile
  | Wr p c => lookup s' p = Some (File c) /\ kind_at s p <> KDir
  end.
Proof.
  destruct o as [p | p c]; simpl; intros H.
  - destruct (mkdir_parents s p) as [e | t] eqn:Hu; inversion H; subst t.
    destruct (update_at _ _ _ _ _ Hu) as (v & Hf & Hl).
    unfold kind_at. rewrite Hl. simpl in Hf. unfold mkdir_at in Hf.
    destruct (lookup s p) as [[c | es] |]; inversion Hf; subst v; simpl;
      split; congruence.
  - destruct (write_file s p c) as [e | t] eqn:Hu; inversion H; subst t.
    destruct (update_at _ _ _ _ _ Hu) as (v & Hf & Hl).
    unfold kind_at. rewrite Hl. simpl in Hf. unfold write_at in Hf.
    destruct (lookup s p) as [[c' | es] |]; inversion Hf; subst v; simpl;
      split; congruence.
Qed.

(** What exists keeps its kind. *)
Lemma apply_op_persist o s s' q :
  apply_op o s = Some s' ->
  kind_at s q <> KNone ->
  kind_at s' q = kind_at s q.
Proof.
  intros H Hex.
  destruct (is_prefix q (target o)) eqn:Hq.
  - destruct (path_eq_dec q (target o)) as [-> | Hne].
    + pose proof (apply_op_at _ _ _ H) as Hat.
      destruct o as [p | p c]; simpl in *.
      * destruct Hat as [-> Hnf]. destruct (kind_at s p); congruence.
      * destruct Hat as [Hl Hnd]. unfold kind_at at 1. rewrite Hl. simpl.
        destruct (kind_at s p); congruence.
    + destruct (apply_op_on _ _ _ _ H Hq Hne) as [-> Hnf].
      destruct (kind_at s q); congruence.
  - unfold kind_at. now rewrite (apply_op_off _ _ _ _ H Hq).
Qed.

(** No file appears or disappears, except the file written. *)
Lemma apply_op_file_iff o s s' q :
  apply_op o s = Some s' ->
  (forall c, o <> Wr q c) ->
  (kind_at s' q = KFile <-> kind_at s q = KFile).
Proof.
  intros H Hw.
  destruct (is_prefix q (target o)) eqn:Hq.
  - destruct (path_eq_dec q (target o)) as [-> | Hne].
    + pose proof (apply_op_at _ _ _ H) as Hat.
      destruct o as [p | p c]; simpl in *.
      * destruct Hat as [-> Hnf]. split; congruence.
      * now elim (Hw c).
    + destruct (apply_op_on _ _ _ _ H Hq Hne) as [-> Hnf].
      split; congruence.
  - unfold kind_at. now rewrite (apply_op_off _ _ _ _ H Hq).
Qed.

Lemma compat_refl s : compat s s.
Proof. repeat split; auto. Qed.

Lemma compat_sym s1 s2 : compat s1 s2 -> compat s2 s1.
Proof.
  unfold compat, agree_inputs.
  intros (Ha & Hf & Hd). repeat split; intros.
  - symmetry. now apply Ha.
  - now apply Hf.
  - now apply Hf.
  - now apply Hd.
  - now apply Hd.
Qed.

Lemma compat_trans s1 s2 s3 : compat s1 s2 -> compat s2 s3 -> compat s1 s3.
Proof.
  unfold compat, agree_inputs.
  intros (Ha & Hf & Hd) (Ha' & Hf' & Hd'). repeat split; intros.
  - rewrite Ha by assumption. now apply Ha'.
  - apply Hf'; auto. now apply Hf.
  - apply Hf; auto. now apply Hf'.
  - apply Hd'; auto. now apply Hd.
  - apply Hd; auto. now apply Hd'.
Qed.

Lemma apply_op_frame o s s' x q :
  out_op o -> apply_op o s = Some s' -> x <> "Quizzes" ->
  lookup s' (x :: q) = lookup s (x :: q).
Proof.
  intros Ho H Hx. apply (apply_op_off _ _ _ _ H).
  destruct o as [p | p c]; simpl in Ho |- *.
  - destruct Ho as (d & ->). simpl.
    destruct (String.eqb_spec x "Quizzes"); [contradiction | reflexivity].
  - destruct Ho as (d & f & ->). simpl.
    destruct (String.eqb_spec x "Quizzes"); [contradiction | reflexivity].
Qed.

Lemma apply_op_compat o s s' :
  out_op o -> apply_op o s = Some s' -> compat s s'.
Proof.
  intros Ho H. unfold compat, agree_inputs. repeat split.
  - symmetry. now apply (apply_op_frame o).
  - intros Hk. apply (apply_op_file_iff _ _ _ _ H); [| exact Hk].
    intros c ->. destruct Ho as (d & f & ->). simpl in *. lia.
  - intros Hk. apply (apply_op_file_iff _ _ _ _ H); [| exact Hk].
    intros c ->. destruct Ho as (d & f & ->). simpl in *. lia.
  - intros Hk. rewrite (apply_op_persist _ _ _ _ H); congruence.
  - intros Hk.
    destruct (is_prefix q (target o)) eqn:Hq.
    + destruct o as [p | p c]; simpl in Ho, Hq.
      * destruct Ho as (d & ->). apply is_prefix_length in Hq.
        simpl in Hq. lia.
      * destruct Ho as (d & f & ->).
        apply is_prefix_same_length in Hq; [| simpl; lia]. subst q.
        destruct (apply_op_at _ _ _ H) as [Hl _].
        unfold kind_at in Hk. rewrite Hl in Hk. discriminate.
    + unfold kind_at in *. now rewrite <- (apply_op_off _ _ _ _ H Hq).
Qed.

Lemma replay_compat ws :
  forall s s', Forall out_op ws -> replay ws s = Some s' -> compat s s'.
Proof.
  induction ws as [| o ws IH]; intros s s' Ho H; simpl in H.
  - inversion H. apply compat_refl.
  - inversion Ho; subst.
    destruct (apply_op o s) as [s1 |] eqn:H1; [| discriminate].
    eapply compat_trans; [apply (apply_op_compat o); eauto |].
    now apply IH.
Qed.

Lemma replay_app ws1 ws2 s :
  replay (ws1 ++ ws2) s
  = match replay ws1 s with
    | Some s1 => replay ws2 s1
    | None => None
    end.
Proof.
  revert s. induction ws1 as [| o ws1 IH]; intros s; simpl; [reflexivity |].
  destruct (apply_op o s); [apply IH | reflexivity].
Qed.

Lemma replay_persist ws :
  forall s s' q,
    replay ws s = Some s' -> kind_at s q <> KNone ->
    kind_at s' q = kind_at s q.
Proof.
  induction ws as [| o ws IH]; intros s s' q H Hex; simpl in H.
  - now inversion H.
  - destruct (apply_op o s) as [s1 |] eqn:H1; [| discriminate].
    pose proof (apply_op_persist _ _ _ _ H1 Hex) as Hp.
    rewrite (IH _ _ _ H); congruence.
Qed.

End TraceFacts.

(** ** Writing over what a run has written *)

Module Overwrite.
Import FS FSFacts TraceFacts.

Lemma set_content_absorb p c c' :
  forall t, set_content p c (set_content p c' t) = set_content p c t.
Proof.
  induction p as [| x p IH]; intros [d | es]; simpl; auto.
  destruct (assoc x es) as [n |] eqn:Hx; simpl; [| now rewrite Hx].
  now rewrite assoc_set_same, IH, set_entry_set.
Qed.

Lemma set_content_comm p c :
  forall q d t,
    p <> q ->
    set_content p c (set_content q d t) = set_content q d (set_content p c t).
Proof.
  induction p as [| x p IH]; intros [| y q] d [b | es] Hne; simpl; auto;
    try congruence.
  - now destruct (assoc y es).
  - now destruct (assoc x es).
  - destruct (String.eqb_spec x y) as [-> | Hxy].
    + destruct (assoc y es) as [n |] eqn:Hy; simpl; rewrite ?Hy; auto.
      rewrite !assoc_set_same, !set_entry_set.
      rewrite (IH q d n); congruence.
    + destruct (assoc y es) as [n |] eqn:Hy;
        destruct (assoc x es) as [m |] eqn:Hx; simpl;
        rewrite ?Hx, ?Hy, ?assoc_set_other by congruence;
        rewrite ?Hx, ?Hy; auto.
      rewrite set_entry_comm; congruence.
Qed.

Lemma set_content_id p c :
  forall t, lookup t p = Some (File c) -> set_content p c t = t.
Proof.
  induction p as [| x p IH]; intros [d | es]; simpl; try congruence.
  destruct (assoc x es) as [n |] eqn:Hx; [| reflexivity].
  intros H. rewrite (IH _ H). now rewrite set_entry_id.
Qed.

Lemma set_content_kind p c :
  forall t q, kind_at (set_content p c t) q = kind_at t q.
Proof.
  unfold kind_at.
  induction p as [| x p IH]; intros [d | es] q; simpl; auto.
  - now destruct q.
  - destruct (assoc x es) as [n |] eqn:Hx; [| reflexivity].
    destruct q as [| y q]; [reflexivity |].
    rewrite !lookup_opt_cons.
    destruct (String.eqb_spec x y) as [-> | Hxy].
    + rewrite assoc_set_same, Hx. simpl. apply IH.
    + now rewrite assoc_set_other.
Qed.

(** Writing to an existing file replaces its content where it stands. *)
Lemma write_existing p c :
  forall t,
    kind_at t p = KFile -> write_file t p c = inr (set_content p c t).
Proof.
  unfold write_file, kind_at.
  induction p as [| x p IH]; intros [d | es]; simpl; try discriminate; auto.
  destruct (assoc x es) as [n |] eqn:Hx; [| discriminate].
  intros H. now rewrite (IH _ H).
Qed.

(** [mkdir] on an existing directory changes nothing. *)
Lemma mkdir_existing p :
  forall t, kind_at t p = KDir -> mkdir_parents t p = inr t.
Proof.
  unfold mkdir_parents, kind_at.
  induction p as [| x p IH]; intros [d | es]; simpl; try discriminate; auto.
  destruct (assoc x es) as [n |] eqn:Hx; [| discriminate].
  intros H. rewrite (IH _ H). now rewrite set_entry_id.
Qed.

Lemma overwrite_target_exists o o' s :
  target_exists s o' -> target_exists (overwrite o s) o'.
Proof.
  destruct o as [q | p c]; simpl; auto.
  destruct o'; simpl; now rewrite set_content_kind.
Qed.

Lemma replay_overwrite ws :
  forall s,
    Forall (target_exists s) ws ->
    replay ws s = Some (fold_left (fun s o => overwrite o s) ws s).
Proof.
  induction ws as [| o ws IH]; intros s H; simpl; [reflexivity |].
  inversion H as [| ? ? Ho Hws]; subst.
  assert (Hap : apply_op o s = Some (overwrite o s)).
  { destruct o as [q | p c]; simpl in *.
    - now rewrite mkdir_existing.
    - now rewrite write_existing. }
  rewrite Hap. apply IH.
  eapply Forall_impl; [| exact Hws].
  intros o'. apply overwrite_target_exists.
Qed.

(** After a trace ran, all its targets exist. *)
Lemma replay_targets ws :
  forall s s', replay ws s = Some s' -> Forall (target_exists s') ws.
Proof.
  induction ws as [| o ws IH]; intros s s' H; simpl in H; [constructor |].
  destruct (apply_op o s) as [s1 |] eqn:H1; [| discriminate].
  constructor; [| now apply (IH s1)].
  pose proof (apply_op_at _ _ _ H1) as Hat.
  destruct o as [q | p c]; simpl.
  - destruct Hat as [Hk _].
    rewrite (replay_persist _ _ _ _ H); congruence.
  - destruct Hat as [Hl _].
    rewrite (replay_persist _ _ _ _ H); unfold kind_at; rewrite Hl; simpl;
      congruence.
Qed.

Lemma apply_op_keeps_file o s s' p c :
  apply_op o s = Some s' ->
  (forall c', o <> Wr p c') ->
  lookup s p = Some (File c) ->
  lookup s' p = Some (File c).
Proof.
  intros H Hw Hl.
  assert (Hk : kind_at s p = KFile) by (unfold kind_at; now rewrite Hl).
  destruct (is_prefix p (target o)) eqn:Hp.
  - destruct (path_eq_dec p (target o)) as [-> | Hne].
    + pose proof (apply_op_at _ _ _ H) as Hat.
      destruct o as [q | q c']; simpl in *.
      * destruct Hat; congruence.
      * now elim (Hw c').
    + destruct (apply_op_on _ _ _ _ H Hp Hne). congruence.
  - now rewrite (apply_op_off _ _ _ _ H Hp).
Qed.

Lemma replay_keeps_file ws p c :
  forall s s',
    replay ws s = Some s' ->
    (forall c', ~ In (Wr p c') ws) ->
    lookup s p = Some (File c) ->
    lookup s' p = Some (File c).
Proof.
  induction ws as [| o ws IH]; intros s s' H Hw Hl; simpl in H.
  - now inversion H; subst.
  - destruct (apply_op o s) as [s1 |] eqn:H1; [| discriminate].
    apply (IH s1); auto.
    + intros c' Hin. apply (Hw c'). now right.
    + apply (apply_op_keeps_file _ _ _ _ _ H1); auto.
      intros c' ->. apply (Hw c'). now left.
Qed.

(** The last write to a path decides what it holds in the end. *)
Lemma replay_last_write ws1 p c ws2 s s' :
  replay (ws1 ++ Wr p c :: ws2) s = Some s' ->
  (forall c', ~ In (Wr p c') ws2) ->
  lookup s' p = Some (File c).
Proof.
  rewrite replay_app. intros H Hw.
  destruct (replay ws1 s) as [s1 |]; [| discriminate].
  simpl in H.
  destruct (write_file s1 p c) as [e | s2] eqn:H2; [discriminate |].
  apply (replay_keeps_file ws2 p c s2); auto.
  assert (Hap : apply_op (Wr p c) s1 = Some s2) by (simpl; now rewrite H2).
  apply (apply_op_at _ _ _ Hap).
Qed.

Lemma later_write_dec p ws :
  {c' | In (Wr p c') ws} + {forall c', ~ In (Wr p c') ws}.
Proof.
  induction ws as [| o ws [[c' Hin] | Hno]].
  - right. intros c' [].
  - left. exists c'. now right.
  - destruct o as [q | q c].
    + right. intros c' [Heq | Hin]; [discriminate | now apply (Hno c')].
    + destruct (path_eq_dec p q) as [-> | Hne].
      * left. exists c. now left.
      * right. intros c' [Heq | Hin]; [congruence | now apply (Hno c')].
Qed.

(** A write that is written over later does not show. *)
Lemma overwrite_shadowed ws p c c' :
  forall s,
    In (Wr p c') ws ->
    fold_left (fun s o => overwrite o s) ws (set_content p c s)
    = fold_left (fun s o => overwrite o s) ws s.
Proof.
  induction ws as [| o ws IH]; intros s Hin; [contradiction |].
  simpl. destruct o as [q | q d]; simpl.
  - destruct Hin as [Heq | Hin]; [discriminate | now apply IH].
  - destruct (path_eq_dec q p) as [-> | Hne].
    + now rewrite set_content_absorb.
    + destruct Hin as [Heq | Hin]; [congruence |].
      rewrite set_content_comm by exact Hne. now apply IH.
Qed.

Lemma overwrite_fixed ws :
  forall F,
    (forall ws1 p c ws2,
       ws = ws1 ++ Wr p c :: ws2 ->
       (forall c', ~ In (Wr p c') ws2) ->
       lookup F p = Some (File c)) ->
    fold_left (fun s o => overwrite o s) ws F = F.
Proof.
  induction ws as [| o ws IH]; intros F Hlast; [reflexivity |].
  assert (Hrest : fold_left (fun s o => overwrite o s) ws F = F).
  { apply IH. intros ws1 p c ws2 -> Hno.
    apply (Hlast (o :: ws1) p c ws2); auto. }
  simpl. destruct o as [q | p c]; simpl; [exact Hrest |].
  destruct (later_write_dec p ws) as [[c' Hin] | Hno].
  - now rewrite (overwrite_shadowed ws p c c').
  - rewrite set_content_id; [exact Hrest |].
    apply (Hlast [] p c ws); auto.
Qed.

(** Running the trace of a run once more changes nothing. *)
Lemma replay_twice ws s F :
  replay ws s = Some F -> replay ws F = Some F.
Proof.
  intros H.
  rewrite (replay_overwrite ws F (replay_targets _ _ _ H)).
  f_equal. apply overwrite_fixed.
  intros ws1 p c ws2 -> Hno.
  apply (replay_last_write _ _ _ _ _ _ H Hno).
Qed.

End Overwrite.

(** ** The same failures on compatible trees *)

Module Errors.
Import FS FSFacts TraceFacts.

Lemma out_op_mk d : out_op (Mk (OUTPUT_DIR ++ [d])).
Proof. now exists d. Qed.

Lemma out_op_wr d f c : out_op (Wr (OUTPUT_DIR ++ [d] ++ [f]) c).
Proof. now exists d, f. Qed.

Lemma same_err_wrap (r1 r2 : errno + node) (g1 g2 : node -> node) :
  same_err r1 r2 ->
  same_err (match r1 with inr c => inr (g1 c) | inl e => inl e end)
           (match r2 with inr c => inr (g2 c) | inl e => inl e end).
Proof. destruct r1, r2; simpl; auto. Qed.

(** [mkdir] fails on a file in its way, and in the same way wherever the
    files in its way are the same. *)
Lemma mkdir_same_err :
  forall p o1 o2,
    (forall q, is_prefix q p = true ->
       (kind_of (lookup_opt o1 q) = KFile <-> kind_of (lookup_opt o2 q) = KFile)) ->
    same_err (update true mkdir_at o1 p) (update true mkdir_at o2 p).
Proof.
  induction p as [| x p IH]; intros o1 o2 H.
  - specialize (H [] eq_refl). simpl.
    destruct o1 as [[c1 | es1] |], o2 as [[c2 | es2] |]; simpl in *;
      auto; destruct H as [H1 H2]; try (now discriminate (H1 eq_refl));
      try (now discriminate (H2 eq_refl)).
  - pose proof (H [] eq_refl) as H0.
    assert (Hsub : forall n1 n2,
               (forall q, lookup_opt o1 (x :: q) = lookup_opt n1 q) ->
               (forall q, lookup_opt o2 (x :: q) = lookup_opt n2 q) ->
               same_err (update true mkdir_at n1 p) (update true mkdir_at n2 p)).
    { intros n1 n2 E1 E2. apply IH. intros q Hq.
      rewrite <- E1, <- E2. apply H. simpl. now rewrite String.eqb_refl. }
    destruct o1 as [[c1 | es1] |], o2 as [[c2 | es2] |]; simpl in H0 |- *;
      auto; destruct H0 as [H1 H2]; try (now discriminate (H1 eq_refl));
      try (now discriminate (H2 eq_refl)).
    + apply same_err_wrap, Hsub; intros q; cbn [lookup_opt];
        now rewrite lookup_opt_cons.
    + apply same_err_wrap, Hsub; intros q; cbn [lookup_opt];
        now rewrite ?lookup_opt_cons.
    + apply same_err_wrap, Hsub; intros q; cbn [lookup_opt];
        now rewrite ?lookup_opt_cons.
    + apply same_err_wrap, Hsub; intros q; reflexivity.
Qed.

(** A write fails on a directory at its place, and in the same way wherever
    the way to the file looks the same. *)
Lemma write_same_err c :
  forall p o1 o2,
    (forall q, is_prefix q p = true -> q <> p ->
       kind_of (lookup_opt o1 q) = kind_of (lookup_opt o2 q)) ->
    (kind_of (lookup_opt o1 p) = KDir <-> kind_of (lookup_opt o2 p) = KDir) ->
    same_err (update false (write_at c) o1 p) (update false (write_at c) o2 p).
Proof.
  induction p as [| x p IH]; intros o1 o2 H Hd.
  - simpl.
    destruct o1 as [[c1 | es1] |], o2 as [[c2 | es2] |]; simpl in *;
      auto; destruct Hd as [H1 H2]; try (now discriminate (H1 eq_refl));
      try (now discriminate (H2 eq_refl)).
  - assert (H0 : kind_of (lookup_opt o1 []) = kind_of (lookup_opt o2 []))
      by (apply H; [reflexivity | discriminate]).
    destruct o1 as [[c1 | es1] |], o2 as [[c2 | es2] |]; simpl in H0 |- *;
      auto; try discriminate.
    apply same_err_wrap, IH.
    + intros q Hq Hne. specialize (H (x :: q)). cbn [lookup_opt] in H.
      rewrite !lookup_opt_cons in H. apply H.
      * simpl. now rewrite String.eqb_refl.
      * congruence.
    + cbn [lookup_opt] in Hd. now rewrite !lookup_opt_cons in Hd.
Qed.

(** On compatible trees the creation of an output folder and the write of
    an output file into it fail or succeed alike. *)
Lemma output_same_err s1 s2 d f c :
  compat s1 s2 ->
  same_err (mkdir_parents s1 (OUTPUT_DIR ++ [d]))
           (mkdir_parents s2 (OUTPUT_DIR ++ [d]))
  /\ forall t1 t2,
       mkdir_parents s1 (OUTPUT_DIR ++ [d]) = inr t1 ->
       mkdir_parents s2 (OUTPUT_DIR ++ [d]) = inr t2 ->
       same_err (write_file t1 (OUTPUT_DIR ++ [d] ++ [f]) c)
                (write_file t2 (OUTPUT_DIR ++ [d] ++ [f]) c).
Proof.
  intros Hc. split.
  - apply mkdir_same_err. intros q Hq. cbn [lookup_opt].
    destruct Hc as (_ & Hf & _). apply Hf.
    apply is_prefix_length in Hq. simpl in Hq. lia.
  - intros t1 t2 H1 H2.
    assert (A1 : apply_op (Mk (OUTPUT_DIR ++ [d])) s1 = Some t1)
      by (simpl; simpl in H1; now rewrite H1).
    assert (A2 : apply_op (Mk (OUTPUT_DIR ++ [d])) s2 = Some t2)
      by (simpl; simpl in H2; now rewrite H2).
    assert (Hc' : compat t1 t2).
    { eapply compat_trans; [| apply (apply_op_compat _ _ _ (out_op_mk d) A2)].
      eapply compat_trans; [| exact Hc].
      apply compat_sym, (apply_op_compat _ _ _ (out_op_mk d) A1). }
    assert (Hdirs : forall s t q,
               apply_op (Mk (OUTPUT_DIR ++ [d])) s = Some t ->
               is_prefix q (OUTPUT_DIR ++ [d]) = true ->
               kind_at t q = KDir).
    { intros s t q A Hq.
      destruct (path_eq_dec q (OUTPUT_DIR ++ [d])) as [-> | Hne].
      - apply (apply_op_at _ _ _ A).
      - apply (apply_op_on _ _ _ _ A Hq Hne). }
    apply write_same_err.
    + intros q Hq Hne. cbn [lookup_opt].
      assert (Hq' : is_prefix q (OUTPUT_DIR ++ [d]) = true).
      { destruct q as [| a [| b [| e q]]]; simpl in Hq |- *; auto.
        apply andb_prop in Hq as [Ha Hq]. apply andb_prop in Hq as [Hb Hq].
        apply andb_prop in Hq as [He Hq].
        apply String.eqb_eq in Ha, Hb, He. subst.
        destruct q; [now elim Hne | discriminate]. }
      pose proof (Hdirs _ _ _ A1 Hq') as K1.
      pose proof (Hdirs _ _ _ A2 Hq') as K2.
      unfold kind_at in K1, K2. congruence.
    + cbn [lookup_opt]. destruct Hc' as (_ & _ & Hd). now apply Hd.
Qed.

End Errors.

(** ** Reading the inputs of compatible trees *)

Module Inputs.
Import FS FSFacts TraceFacts.

Lemma is_dir_agree s1 s2 x q :
  agree_inputs s1 s2 -> x <> "Quizzes" ->
  is_dir s1 (x :: q) = is_dir s2 (x :: q).
Proof. intros Ha Hx. unfold is_dir. now rewrite (Ha x q Hx). Qed.

Lemma exists_agree s1 s2 x q :
  agree_inputs s1 s2 -> x <> "Quizzes" ->
  exists_ s1 (x :: q) = exists_ s2 (x :: q).
Proof. intros Ha Hx. unfold exists_. now rewrite (Ha x q Hx). Qed.

Lemma children_agree s1 s2 x q :
  agree_inputs s1 s2 -> x <> "Quizzes" ->
  children s1 (x :: q) = children s2 (x :: q).
Proof. intros Ha Hx. unfold children. now rewrite (Ha x q Hx). Qed.

Lemma children_below t p item :
  In item (children t p) -> exists nm, item = p ++ [nm].
Proof.
  unfold children. destruct (lookup t p) as [[c | es] |]; try contradiction.
  intros H. apply in_map_iff in H as ([nm n] & <- & _). now exists nm.
Qed.

Lemma flat_map_agree {A B} (f g : A -> list B) (l : list A) :
  (forall a, In a l -> f a = g a) -> flat_map f l = flat_map g l.
Proof.
  induction l as [| a l IH]; intros H; simpl; [reflexivity |].
  rewrite (H a) by now left. rewrite IH; [reflexivity |].
  intros b Hb. apply H. now right.
Qed.

Lemma quiz_folders_of_agree s1 s2 x q :
  agree_inputs s1 s2 -> x <> "Quizzes" ->
  quiz_folders_of s1 (x :: q) = quiz_folders_of s2 (x :: q).
Proof.
  intros Ha Hx. unfold quiz_folders_of, quiz_entries.
  rewrite (children_agree s1 s2 x q Ha Hx). f_equal.
  apply flat_map_agree. intros item Hin.
  apply children_below in Hin as (nm & ->). simpl.
  now rewrite (is_dir_agree s1 s2 x (q ++ [nm]) Ha Hx).
Qed.

Lemma locate_agree s1 s2 x q quiz_num part_num :
  agree_inputs s1 s2 -> x <> "Quizzes" ->
  locate s1 (x :: q) quiz_num part_num = locate s2 (x :: q) quiz_num part_num.
Proof.
  intros Ha Hx. unfold locate.
  rewrite (children_agree s1 s2 x q Ha Hx).
  replace (find (fun nm => exists_ s1 ((x :: q) ++ [nm]))
             (exact_names quiz_num part_num))
    with (find (fun nm => exists_ s2 ((x :: q) ++ [nm]))
            (exact_names quiz_num part_num)); [reflexivity |].
  unfold exact_names. cbn [find app].
  now rewrite !(exists_agree s1 s2 x _ Ha Hx).
Qed.

Lemma located_agree s1 s2 x q quiz_num part_nums :
  agree_inputs s1 s2 -> x <> "Quizzes" ->
  located s1 (x :: q) quiz_num part_nums
  = located s2 (x :: q) quiz_num part_nums.
Proof.
  intros Ha Hx. unfold located. apply flat_map_agree. intros part_num _.
  now rewrite (locate_agree s1 s2 x q quiz_num part_num Ha Hx).
Qed.

Lemma warnings_of_agree WS s1 s2 x q quiz_num part_nums :
  agree_inputs s1 s2 -> x <> "Quizzes" ->
  warnings_of WS s1 (x :: q) quiz_num part_nums
  = warnings_of WS s2 (x :: q) quiz_num part_nums.
Proof.
  intros Ha Hx. unfold warnings_of. apply flat_map_agree. intros part_num _.
  now rewrite (locate_agree s1 s2 x q quiz_num part_num Ha Hx).
Qed.

Lemma find_loose_in quiz_num part_num files file :
  find_loose quiz_num part_num files = Some file -> In file files.
Proof.
  induction files as [| f rest IH]; simpl; [discriminate |].
  destruct (loose_match quiz_num part_num f); intros H.
  - inversion H. now left.
  - right. now apply IH.
Qed.

(** The parts located for a quiz lie in its folder. *)
Lemma located_below t quiz_folder quiz_num part_nums file :
  In file (located t quiz_folder quiz_num part_nums) ->
  exists nm, file = quiz_folder ++ [nm].
Proof.
  unfold located. intros H. apply in_flat_map in H as (part_num & _ & H).
  unfold locate in H.
  destruct (find _ (exact_names quiz_num part_num)) as [nm |].
  - destruct H as [<- | []]. now exists nm.
  - destruct (find_loose quiz_num part_num (children t quiz_folder))
      as [f |] eqn:Hf; [| contradiction].
    destruct H as [<- | []].
    apply find_loose_in in Hf. now apply children_below in Hf.
Qed.

Lemma append_all_agree s1 s2 pdf_paths :
  (forall p, In p pdf_paths -> lookup s1 p = lookup s2 p) ->
  forall m, append_all s1 pdf_paths m = append_all s2 pdf_paths m.
Proof.
  induction pdf_paths as [| p rest IH]; intros H m; [reflexivity |].
  cbn [append_all]. unfold read_pdf. rewrite (H p) by now left.
  destruct (lookup s2 p) as [[[pgs | b] | es] |]; try reflexivity.
  apply IH. intros p' Hp'. apply H. now right.
Qed.

Lemma semester_entries_agree s1 s2 items :
  agree_inputs s1 s2 ->
  (forall item, In item items -> exists nm, item = [nm]) ->
  semester_entries s1 items = semester_entries s2 items.
Proof.
  intros Ha Hitems. unfold semester_entries. apply flat_map_agree.
  intros item Hin. destruct (Hitems item Hin) as (nm & ->).
  destruct (String.eqb_spec nm "Quizzes") as [-> | Hne].
  - change (FS.name ["Quizzes"]) with "Quizzes".
    replace (parse_semester_folder "Quizzes") with (@None (string * string))
      by (vm_compute; reflexivity).
    now destruct (is_dir s1 ["Quizzes"]), (is_dir s2 ["Quizzes"]).
  - now rewrite (is_dir_agree s1 s2 nm [] Ha Hne).
Qed.

End Inputs.

(** ** Two runs side by side *)

Section Twin.
Import FS FSFacts TraceFacts Errors Inputs.

Variable WS : string.
Variables T1 T2 : node.
Hypothesis HT : compat T1 T2.

Lemma in_step_start : in_step T1 T2 T1 T2.
Proof. exists []. repeat split; constructor. Qed.

Lemma in_step_compat s1 s2 :
  in_step T1 T2 s1 s2 -> compat T1 s1 /\ compat T2 s2 /\ compat s1 s2.
Proof.
  intros (ws & Ho & R1 & R2).
  pose proof (replay_compat _ _ _ Ho R1) as C1.
  pose proof (replay_compat _ _ _ Ho R2) as C2.
  split; [exact C1 |]. split; [exact C2 |].
  eapply compat_trans; [apply compat_sym, C1 |].
  eapply compat_trans; [exact HT | exact C2].
Qed.

Lemma in_step_more s1 s2 ops s1' s2' :
  in_step T1 T2 s1 s2 -> Forall out_op ops ->
  replay ops s1 = Some s1' -> replay ops s2 = Some s2' ->
  in_step T1 T2 s1' s2'.
Proof.
  intros (ws & Ho & R1 & R2) Hops R1' R2'.
  exists (ws ++ ops). rewrite !replay_app, R1, R2.
  repeat split; auto. now apply Forall_app.
Qed.

Lemma twin_ret {A} (P : node -> Prop) (a : A) : twin T1 T2 P (ret a) (fun b s => b = a /\ P s).
Proof.
  intros w1 w2 Hs HP. exists a, [], w1, w2.
  rewrite !app_nil_r. repeat split; auto.
Qed.

Lemma twin_bind {A B} (P : node -> Prop) (Mid : A -> node -> Prop)
    (Q : B -> node -> Prop) (m : M A) (k : A -> M B) :
  twin T1 T2 P m Mid -> (forall a, twin T1 T2 (Mid a) (k a) Q) -> twin T1 T2 P (bind m k) Q.
Proof.
  intros Hm Hk w1 w2 Hs HP.
  destruct (Hm w1 w2 Hs HP) as (a & l1 & w1' & w2' & E1 & E2 & O1 & O2 & Hs' & HM).
  destruct (Hk a w1' w2' Hs' HM)
    as (b & l2 & w1'' & w2'' & F1 & F2 & O1' & O2' & Hs'' & HQ).
  exists b, (l1 ++ l2), w1'', w2''. unfold bind. rewrite E1, E2.
  repeat split; auto.
  - now rewrite O1', O1, app_assoc.
  - now rewrite O2', O2, app_assoc.
Qed.

Lemma twin_weaken {A} (P P' : node -> Prop) (Q Q' : A -> node -> Prop)
    (m : M A) :
  (forall s, P' s -> P s) -> (forall a s, Q a s -> Q' a s) ->
  twin T1 T2 P m Q -> twin T1 T2 P' m Q'.
Proof.
  intros HP HQ Hm w1 w2 Hs HP'.
  destruct (Hm w1 w2 Hs (HP _ HP'))
    as (a & l & w1' & w2' & E1 & E2 & O1 & O2 & Hs' & Hq).
  exists a, l, w1', w2'. repeat split; auto.
Qed.

Lemma twin_assume {A} (phi : Prop) (P : node -> Prop) (m : M A)
    (Q : A -> node -> Prop) :
  (phi -> twin T1 T2 P m Q) -> twin T1 T2 (fun s => phi /\ P s) m Q.
Proof. intros H w1 w2 Hs [Hphi HP]. exact (H Hphi w1 w2 Hs HP). Qed.

Lemma twin_print (P : node -> Prop) (line : string) :
  twin T1 T2 P (print line) (fun _ s => P s).
Proof.
  intros w1 w2 Hs HP. exists tt, [line]. eexists _, _.
  unfold print. repeat split; auto.
Qed.

(** The quiz folders of a semester folder are found alike. *)
Lemma twin_find_quiz_folders (P : node -> Prop) (x : string) :
  x <> "Quizzes" -> is_dir T1 [x] = true ->
  twin T1 T2 P (find_quiz_folders [x])
    (fun qs s => qs = quiz_folders_of T1 [x] /\ P s).
Proof.
  intros Hx Hd w1 w2 Hs HP.
  destruct (in_step_compat _ _ Hs) as ((A1 & _) & (A2 & _) & (A12 & _)).
  assert (D1 : is_dir (fs w1) [x] = true)
    by now rewrite <- (is_dir_agree _ _ x [] A1 Hx).
  assert (D2 : is_dir (fs w2) [x] = true)
    by now rewrite <- (is_dir_agree _ _ x [] A12 Hx).
  exists (quiz_folders_of T1 [x]), [], w1, w2.
  rewrite !find_quiz_folders_eq by assumption. rewrite !app_nil_r.
  rewrite <- (quiz_folders_of_agree _ _ x [] A12 Hx).
  rewrite <- (quiz_folders_of_agree _ _ x [] A1 Hx).
  repeat split; auto.
Qed.

(** A merge into an output path goes alike in both runs. *)
Lemma twin_merge (pdf_paths : list path) (d f : string) (w1 w2 : world) :
  compat (fs w1) (fs w2) ->
  pdf_paths <> [] ->
  (forall p, In p pdf_paths -> lookup (fs w1) p = lookup (fs w2) p) ->
  exists b lines ops w1' w2',
    merge_pdfs WS pdf_paths (OUTPUT_DIR ++ [d] ++ [f]) w1 = (Returned b, w1')
    /\ merge_pdfs WS pdf_paths (OUTPUT_DIR ++ [d] ++ [f]) w2 = (Returned b, w2')
    /\ stdout w1' = stdout w1 ++ lines
    /\ stdout w2' = stdout w2 ++ lines
    /\ Forall out_op ops
    /\ replay ops (fs w1) = Some (fs w1')
    /\ replay ops (fs w2) = Some (fs w2')
    /\ (b = true -> is_dir (fs w1') OUTPUT_DIR = true).
Proof.
  intros Hc Hne Hin.
  rewrite !merge_pdfs_eq by exact Hne. cbv zeta.
  rewrite <- (append_all_agree _ _ _ Hin).
  destruct (append_all (fs w1) pdf_paths (mkMerger [] [])) as [m [e |]];
    cbn [fst snd].
  { exists false, [error_line WS e], []. eexists _, _.
    repeat split; try reflexivity; auto. discriminate. }
  change (parent (OUTPUT_DIR ++ [d] ++ [f])) with (OUTPUT_DIR ++ [d]).
  destruct (output_same_err _ _ d f (Pdf (pages m)) Hc) as [Hmk Hwr].
  destruct (mkdir_parents (fs w1) (OUTPUT_DIR ++ [d])) as [e1 | t1] eqn:M1;
    destruct (mkdir_parents (fs w2) (OUTPUT_DIR ++ [d])) as [e2 | t2] eqn:M2;
    simpl in Hmk; try contradiction.
  { subst e2.
    exists false, [error_line WS (OSError e1 (OUTPUT_DIR ++ [d]))], [].
    eexists _, _. repeat split; try reflexivity; auto. discriminate. }
  specialize (Hwr t1 t2 eq_refl eq_refl).
  destruct (write_file t1 (OUTPUT_DIR ++ [d] ++ [f]) (Pdf (pages m)))
    as [e1 | t1'] eqn:W1;
    destruct (write_file t2 (OUTPUT_DIR ++ [d] ++ [f]) (Pdf (pages m)))
      as [e2 | t2'] eqn:W2;
    simpl in Hwr; try contradiction.
  { subst e2.
    exists false, [error_line WS (OSError e1 (OUTPUT_DIR ++ [d] ++ [f]))],
      [Mk (OUTPUT_DIR ++ [d])].
    eexists _, _. repeat split; try reflexivity.
    - repeat constructor. apply out_op_mk.
    - cbn [replay apply_op fs]. now rewrite M1.
    - cbn [replay apply_op fs]. now rewrite M2.
    - discriminate. }
  exists true, [], [Mk (OUTPUT_DIR ++ [d]); Wr (OUTPUT_DIR ++ [d] ++ [f]) (Pdf (pages m))].
  eexists _, _. rewrite !app_nil_r. repeat split; try reflexivity.
  - repeat constructor; [apply out_op_mk | apply out_op_wr].
  - cbn [replay apply_op fs]. now rewrite M1, W1.
  - cbn [replay apply_op fs]. now rewrite M2, W2.
  - intros _. cbn [fs].
    assert (Hap : apply_op (Wr (OUTPUT_DIR ++ [d] ++ [f]) (Pdf (pages m))) t1
                  = Some t1') by (cbn [apply_op]; now rewrite W1).
    destruct (apply_op_on _ _ _ OUTPUT_DIR Hap) as [Hk _];
      [reflexivity | discriminate |].
    unfold is_dir. unfold kind_at in Hk.
    destruct (lookup t1' OUTPUT_DIR) as [[c | es] |]; simpl in Hk; congruence.
Qed.

Lemma process_quiz_skip season year quiz_num quiz_folder m e w w1 parts :
  find_quiz_parts WS quiz_folder quiz_num w = (Returned parts, w1) ->
  List.length parts <> 3 ->
  process_quiz WS season year quiz_num quiz_folder (m, e) w
  = (Returned (m, e + 1),
     World (fs w1) (mergers w1)
       (stdout w1 ++ [skip_line quiz_num (List.length parts)])).
Proof.
  intros Hfind Hlen. unfold process_quiz, bind at 1. rewrite Hfind.
  destruct (Nat.eqb_spec (List.length parts) 3); [contradiction |].
  reflexivity.
Qed.

Lemma process_quiz_merge season year quiz_num quiz_folder m e w w1 w2 parts b :
  find_quiz_parts WS quiz_folder quiz_num w = (Returned parts, w1) ->
  List.length parts = 3 ->
  merge_pdfs WS parts (output_path quiz_num year season) w1 = (Returned b, w2) ->
  process_quiz WS season year quiz_num quiz_folder (m, e) w
  = (Returned (if b then (m + 1, e) else (m, e + 1)),
     World (fs w2) (mergers w2)
       (stdout w2
          ++ [if b then merged_line quiz_num year season
              else failed_line quiz_num])).
Proof.
  intros Hfind Hlen Hmerge. unfold process_quiz, bind at 1. rewrite Hfind.
  destruct (Nat.eqb_spec (List.length parts) 3); [| contradiction].
  cbn [negb]. unfold bind at 1. rewrite Hmerge.
  destruct b; reflexivity.
Qed.

Lemma is_dir_persist ops s s' p :
  replay ops s = Some s' -> is_dir s p = true -> is_dir s' p = true.
Proof.
  intros R Hd.
  assert (Hk : kind_at s p = KDir).
  { unfold is_dir in Hd. unfold kind_at.
    destruct (lookup s p) as [[c | es] |]; try discriminate; reflexivity. }
  assert (Hk' : kind_at s' p = KDir)
    by (rewrite (replay_persist _ _ _ _ R); congruence).
  unfold is_dir. unfold kind_at in Hk'.
  destruct (lookup s' p) as [[c | es] |]; simpl in Hk'; congruence.
Qed.

(** One quiz goes alike in both runs and is counted once. *)
Lemma twin_process_quiz season year quiz_num x r m e :
  x <> "Quizzes" -> is_dir T1 (x :: r) = true ->
  twin T1 T2 (output_made m)
    (process_quiz WS season year quiz_num (x :: r) (m, e))
    (fun c s => fst c + snd c = m + e + 1 /\ output_made (fst c) s).
Proof.
  intros Hx Hd w1 w2 Hs HG.
  destruct (in_step_compat _ _ Hs) as ((A1 & _) & _ & C12).
  pose proof C12 as (A12 & _).
  assert (D1 : is_dir (fs w1) (x :: r) = true)
    by now rewrite <- (is_dir_agree _ _ x r A1 Hx).
  assert (D2 : is_dir (fs w2) (x :: r) = true)
    by now rewrite <- (is_dir_agree _ _ x r A12 Hx).
  pose proof (find_quiz_parts_eq WS (x :: r) quiz_num w1 D1) as E1.
  pose proof (find_quiz_parts_eq WS (x :: r) quiz_num w2 D2) as E2.
  rewrite <- (located_agree _ _ x r quiz_num _ A12 Hx) in E2.
  rewrite <- (warnings_of_agree WS _ _ x r quiz_num _ A12 Hx) in E2.
  set (parts := located (fs w1) (x :: r) quiz_num [1; 2; 3]%N) in *.
  set (warns := warnings_of WS (fs w1) (x :: r) quiz_num [1; 2; 3]%N) in *.
  destruct (Nat.eq_dec (List.length parts) 3) as [Hlen | Hlen].
  - assert (Hne : parts <> []) by (intros E; rewrite E in Hlen; discriminate).
    assert (Hin : forall p, In p parts -> lookup (fs w1) p = lookup (fs w2) p).
    { intros p Hp. apply located_below in Hp as (nm & ->).
      apply (A12 x (r ++ [nm]) Hx). }
    destruct (twin_merge parts ("Quiz " +++ Str.of_N quiz_num)
                (output_filename quiz_num year season)
                (World (fs w1) (mergers w1) (stdout w1 ++ warns))
                (World (fs w2) (mergers w2) (stdout w2 ++ warns))
                C12 Hne Hin)
      as (b & lines & ops & w1' & w2' & M1 & M2 & O1 & O2 & Hops & R1 & R2 & Hb).
    cbn [fs stdout] in *.
    exists (if b then (m + 1, e) else (m, e + 1)),
      (warns ++ lines
         ++ [if b then merged_line quiz_num year season
             else failed_line quiz_num]).
    eexists _, _.
    rewrite (process_quiz_merge _ _ _ _ m e _ _ _ _ b E1 Hlen M1).
    rewrite (process_quiz_merge _ _ _ _ m e _ _ _ _ b E2 Hlen M2).
    cbn [fs stdout]. rewrite O1, O2, <- !app_assoc.
    repeat split; try reflexivity.
    + apply (in_step_more _ _ ops _ _ Hs Hops R1 R2).
    + destruct b; simpl; lia.
    + destruct b; cbn [fst]; intros Hpos.
      * now apply Hb.
      * apply (is_dir_persist ops _ _ _ R1). now apply HG.
  - exists (m, e + 1), (warns ++ [skip_line quiz_num (List.length parts)]).
    eexists _, _.
    rewrite (process_quiz_skip _ _ _ _ m e _ _ _ E1 Hlen).
    rewrite (process_quiz_skip _ _ _ _ m e _ _ _ E2 Hlen).
    cbn [fs stdout]. rewrite <- !app_assoc.
    repeat split; try reflexivity; auto.
    simpl. lia.
Qed.

Lemma twin_process_quizzes season year quiz_folders :
  Forall (fun q => input_dir T1 (snd q)) quiz_folders ->
  forall m e,
    twin T1 T2 (output_made m)
      (process_quizzes WS season year quiz_folders (m, e))
      (fun c s =>
         fst c + snd c = m + e + List.length quiz_folders
         /\ output_made (fst c) s).
Proof.
  induction quiz_folders as [| [quiz_num qf] rest IH]; intros Hall m e.
  - cbn [process_quizzes].
    eapply twin_weaken; [| | apply (twin_ret (output_made m))]; auto.
    intros c s [-> HG]. simpl. split; [lia | exact HG].
  - inversion Hall as [| ? ? (x & r & Hq & Hx & Hd) Hrest]; subst.
    simpl in Hq. subst qf. cbn [process_quizzes].
    eapply twin_bind; [apply (twin_process_quiz season year quiz_num x r m e Hx Hd) |].
    intros [m' e']. apply twin_assume. cbn [fst snd]. intros Hsum.
    eapply twin_weaken; [| | apply (IH Hrest m' e')].
    + auto.
    + intros c s [Hsum' HG]. simpl. split; [lia | exact HG].
Qed.

Lemma quiz_folders_of_in t p quiz_num qf :
  In (quiz_num, qf) (quiz_folders_of t p) ->
  (exists nm, qf = p ++ [nm]) /\ is_dir t qf = true.
Proof.
  intros H.
  apply (Permutation_in _ (Permutation_sym (sort_by_perm quiz_le _))) in H.
  unfold quiz_entries in H. apply in_flat_map in H as (item & Hitem & H).
  destruct (is_dir t item) eqn:Hd; [| contradiction].
  destruct (quiz_number (name item)); [| contradiction].
  destruct H as [H | []]. inversion H; subst.
  split; [now apply children_below in Hitem | exact Hd].
Qed.

Lemma twin_process_semesters semester_folders :
  Forall (semester_ok T1) semester_folders ->
  forall m e,
    twin T1 T2 (output_made m)
      (process_semesters WS semester_folders (m, e))
      (fun c s =>
         fst c + snd c = m + e + quiz_total T1 semester_folders
         /\ output_made (fst c) s).
Proof.
  induction semester_folders as [| [[season year] p] rest IH]; intros Hall m e.
  - cbn [process_semesters].
    eapply twin_weaken; [| | apply (twin_ret (output_made m))]; auto.
    intros c s [-> HG]. unfold quiz_total. simpl. split; [lia | exact HG].
  - inversion Hall as [| ? ? (x & Hp & Hx & Hd) Hrest]; subst.
    simpl in Hp. subst p. cbn [process_semesters].
    eapply twin_bind; [apply twin_print |]. intros [].
    eapply twin_bind; [apply (twin_find_quiz_folders _ x Hx Hd) |].
    intros qs. apply twin_assume. intros ->.
    eapply twin_bind.
    + apply twin_process_quizzes.
      apply Forall_forall. intros [quiz_num qf] Hin. simpl.
      apply quiz_folders_of_in in Hin as ((nm & ->) & Hqd).
      exists x, [nm]. auto.
    + intros [m' e']. apply twin_assume. cbn [fst snd]. intros Hsum.
      eapply twin_weaken; [| | apply (IH Hrest m' e')].
      * auto.
      * intros c s [Hsum' HG]. unfold quiz_total in *. simpl.
        split; [lia | exact HG].
Qed.

End Twin.

(** ** main *)

Lemma scan_semesters_eq (items : list path) :
  forall semester_folders w,
    scan_semesters items semester_folders w
    = (Returned (semester_folders ++ semester_entries (fs w) items), w).
Proof.
  induction items as [| item rest IH]; intros acc w.
  - simpl. unfold ret. now rewrite app_nil_r.
  - cbn [scan_semesters semester_entries flat_map].
    unfold bind at 1, is_dir at 1.
    destruct (FS.is_dir (fs w) item).
    + destruct (parse_semester_folder (FS.name item)) as [[season year] |].
      * rewrite IH. now rewrite <- app_assoc.
      * apply IH.
    + apply IH.
Qed.

Lemma bind_print {B} (line : string) (k : unit -> M B) (w : world) :
  bind (print line) k w
  = k tt (World (fs w) (mergers w) (stdout w ++ [line])).
Proof. reflexivity. Qed.

Lemma for_each_print {A} (f : A -> M unit) (g : A -> string) (l : list A) :
  (forall a, f a = print (g a)) ->
  forall w,
    for_each l f w
    = (Returned tt, World (fs w) (mergers w) (stdout w ++ map g l)).
Proof.
  intros Hf. induction l as [| a l IH]; intros w.
  - simpl. unfold ret. rewrite app_nil_r. now destruct w.
  - cbn [for_each map]. unfold bind. rewrite Hf. unfold print at 1.
    rewrite IH. cbn [fs mergers stdout]. now rewrite <- app_assoc.
Qed.

Section Main.
Variable WS : string.

Lemma summary_folder_eq (folder : path) (w : world) :
  summary_folder folder w
  = (Returned tt,
     World (fs w) (mergers w) (stdout w ++ folder_lines (fs w) folder)).
Proof.
  unfold summary_folder, folder_lines, bind at 1, is_dir at 1.
  destruct (FS.is_dir (fs w) folder) eqn:Hd.
  - unfold FS.is_dir in Hd.
    destruct (FS.lookup (fs w) folder) as [[c | es] |] eqn:Hl;
      try discriminate.
    unfold bind at 1, glob_pdf, bind at 1.
    rewrite (iterdir_dir _ _ _ Hl). reflexivity.
  - unfold ret. rewrite app_nil_r. now destruct w.
Qed.

Lemma for_each_summary_folder (folders : list path) :
  forall w,
    for_each folders summary_folder w
    = (Returned tt,
       World (fs w) (mergers w)
         (stdout w ++ flat_map (folder_lines (fs w)) folders)).
Proof.
  induction folders as [| folder rest IH]; intros w.
  - simpl. unfold ret. rewrite app_nil_r. now destruct w.
  - cbn [for_each flat_map]. unfold bind. rewrite summary_folder_eq.
    rewrite IH. cbn [fs mergers stdout]. now rewrite <- app_assoc.
Qed.

(** The summary is printed whenever the output folder is there to list. *)
Lemma summary_eq (total_merged total_errors : nat) (w : world) :
  (0 < total_merged -> FS.is_dir (fs w) OUTPUT_DIR = true) ->
  summary WS total_merged total_errors w
  = (Returned tt,
     World (fs w) (mergers w)
       (stdout w ++ summary_lines WS total_merged total_errors (fs w))).
Proof.
  intros Hd. unfold summary, summary_lines.
  destruct (Nat.ltb_spec 0 total_merged) as [Hpos | Hzero];
    repeat (unfold bind at 1, print at 1; cbn [fs mergers stdout]).
  - specialize (Hd Hpos). unfold FS.is_dir in Hd.
    destruct (FS.lookup (fs w) OUTPUT_DIR) as [[c | es] |] eqn:Hl;
      try discriminate.
    unfold bind at 1.
    match goal with
    | |- context [iterdir OUTPUT_DIR ?w0] =>
        replace (iterdir OUTPUT_DIR w0)
          with (Returned (children (fs w) OUTPUT_DIR), w0)
          by (symmetry; apply (iterdir_dir OUTPUT_DIR w0 es Hl))
    end.
    rewrite for_each_summary_folder. cbn [fs mergers stdout].
    rewrite <- !app_assoc. reflexivity.
  - unfold ret. rewrite <- !app_assoc. reflexivity.
Qed.

Lemma sort_by_nil {A} (le : A -> A -> bool) (l : list A) :
  sort_by le l = [] -> l = [].
Proof.
  intros H. pose proof (sort_by_perm le l) as Hp. rewrite H in Hp.
  now apply Permutation_sym, Permutation_nil in Hp.
Qed.

(** [main] up to the sweep, and from the sweep on. *)
Lemma main_eq (es : list (string * node)) (w : world) :
  fs w = Dir es ->
  main WS w
  = match semesters_of (fs w) with
    | [] =>
        (Returned tt,
         World (fs w) (mergers w)
           (stdout w ++ header WS ++ ["No semester folders found!"]))
    | _ :: _ =>
        bind (process_semesters WS (semesters_of (fs w)) (0, 0))
          (fun counts => summary WS (fst counts) (snd counts))
          (World (fs w) (mergers w)
             (stdout w ++ header WS ++ found_lines (semesters_of (fs w))))
    end.
Proof.
  intros Hroot. unfold main.
  assert (Hl : FS.lookup (fs w) [] = Some (Dir es)) by (simpl; now f_equal).
  rewrite !bind_print. cbn [fs mergers stdout].
  unfold bind at 1. erewrite iterdir_dir by (cbn [fs]; exact Hl).
  unfold bind at 1. rewrite scan_semesters_eq. cbn [fs app].
  unfold semesters_of.
  destruct (semester_entries (fs w) (children (fs w) [])) as [| s0 ss] eqn:Hs.
  - cbn [sort_by]. unfold print. cbn [fs mergers stdout].
    unfold header. now rewrite <- !app_assoc.
  - destruct (sort_by semester_le (s0 :: ss)) as [| s1 ss'] eqn:Hsort.
    { apply sort_by_nil in Hsort. discriminate. }
    rewrite <- Hsort. rewrite bind_print. cbn [fs mergers stdout].
    unfold bind at 1.
    rewrite (for_each_print _ found_line)
      by (intros [[season year] p]; reflexivity).
    cbn [fs mergers stdout]. rewrite bind_print. cbn [fs mergers stdout].
    unfold header, found_lines. now rewrite <- !app_assoc.
Qed.

End Main.

(** The semester folders are directories of the workspace other than the
    output folder. *)
Lemma semesters_of_ok (t : node) (sem : semester) :
  In sem (semesters_of t) -> semester_ok t sem.
Proof.
  intros H.
  apply (Permutation_in _ (Permutation_sym (sort_by_perm semester_le _))) in H.
  unfold semester_entries in H. apply in_flat_map in H as (item & Hitem & H).
  destruct (FS.is_dir t item) eqn:Hd; [| contradiction].
  apply Inputs.children_below in Hitem as (nm & ->).
  change ([] ++ [nm]) with [nm] in *. change (FS.name [nm]) with nm in H.
  destruct (parse_semester_folder nm) as [[season year] |] eqn:Hp;
    [| contradiction].
  destruct H as [<- | []]. exists nm. repeat split; auto.
  intros ->. vm_compute in Hp. discriminate.
Qed.

Section Sweep.
Variable WS : string.

(** The sweep over the semester folders, run from two compatible trees. *)
Lemma sweep_twin (T1 T2 : node) (w1 w2 : world) :
  compat T1 T2 -> fs w1 = T1 -> fs w2 = T2 ->
  exists m e lines w1' w2',
    process_semesters WS (semesters_of T1) (0, 0) w1 = (Returned (m, e), w1')
    /\ process_semesters WS (semesters_of T1) (0, 0) w2 = (Returned (m, e), w2')
    /\ stdout w1' = stdout w1 ++ lines
    /\ stdout w2' = stdout w2 ++ lines
    /\ in_step T1 T2 (fs w1') (fs w2')
    /\ m + e = quiz_total T1 (semesters_of T1)
    /\ output_made m (fs w1').
Proof.
  intros HT F1 F2.
  assert (Hok : Forall (semester_ok T1) (semesters_of T1))
    by (apply Forall_forall; intros sem; apply semesters_of_ok).
  destruct (twin_process_semesters WS T1 T2 HT _ Hok 0 0 w1 w2)
    as ([m e] & lines & w1' & w2' & E1 & E2 & O1 & O2 & Hs & Hsum & HG).
  - rewrite F1, F2. apply in_step_start.
  - intros Hpos. inversion Hpos.
  - exists m, e, lines, w1', w2'. simpl in Hsum. repeat split; auto.
Qed.

(** A run from a workspace: it returns, its changes are a trace of output
    folders made and output files written, and it prints either the notice
    that there is no semester folder, or the sweep and the summary. *)
Lemma run_once (es : list (string * node)) :
  let t := Dir es in
  exists w',
    run WS t = (Returned tt, w')
    /\ (exists ws, Forall out_op ws /\ replay ws t = Some (fs w'))
    /\ ((semesters_of t = []
         /\ fs w' = t
         /\ stdout w' = header WS ++ ["No semester folders found!"])
        \/ (semesters_of t <> []
            /\ exists m e lines,
                 m + e = quiz_total t (semesters_of t)
                 /\ output_made m (fs w')
                 /\ stdout w'
                    = header WS ++ found_lines (semesters_of t) ++ lines
                        ++ summary_lines WS m e (fs w'))).
Proof.
  intros t. unfold run. rewrite (main_eq WS es) by reflexivity.
  cbn [fs mergers stdout app]. fold t.
  destruct (semesters_of t) as [| s0 ss] eqn:Hsem.
  - eexists. split; [reflexivity |].
    split; [exists []; split; [constructor | reflexivity] |].
    left. auto.
  - rewrite <- Hsem.
    destruct (sweep_twin t t
                (World t [] (header WS ++ found_lines (semesters_of t)))
                (World t [] (header WS ++ found_lines (semesters_of t)))
                (TraceFacts.compat_refl t) eq_refl eq_refl)
      as (m & e & lines & w1' & w2' & E1 & _ & O1 & _ & Hs & Hsum & HG).
    unfold bind. rewrite E1. cbn [fst snd].
    rewrite (summary_eq WS m e w1' HG).
    eexists. split; [reflexivity |].
    cbn [fs stdout].
    split.
    + destruct Hs as (ws & Ho & R1 & _). now exists ws.
    + right. split; [rewrite Hsem; discriminate |].
      exists m, e, lines. repeat split; auto.
      rewrite O1. cbn [stdout]. now rewrite <- !app_assoc.
Qed.

End Sweep.

(** ** The run as a whole *)

(** C8 as stated fails: in a workspace without a semester folder the run
    returns after the notice and prints no summary. *)
Lemma main_without_semesters :
  fst (run "/ws" (Dir [("Notes", Dir [])])) = Returned tt
  /\ stdout (snd (run "/ws" (Dir [("Notes", Dir [])])))
     = header "/ws" ++ ["No semester folders found!"]
  /\ ~ In "Summary" (stdout (snd (run "/ws" (Dir [("Notes", Dir [])])))).
Proof.
  split; [vm_compute; reflexivity |]. split; [vm_compute; reflexivity |].
  vm_compute. intros H.
  repeat (destruct H as [H | H]; [discriminate H |]). exact H.
Qed.

(** C8, amended: a run from any workspace returns without raising.  When
    no semester folder is recognised it prints the notice "No semester
    folders found!" and no summary.  Otherwise every quiz folder of every
    recognised semester folder is counted exactly once, as merged or as an
    error, and the summary with these two counts is the last thing
    printed. *)
Theorem main_sweep (WS : string) (es : list (string * node)) :
  let t := Dir es in
  exists w',
    run WS t = (Returned tt, w')
    /\ ((semesters_of t = []
         /\ stdout w' = header WS ++ ["No semester folders found!"])
        \/ (semesters_of t <> []
            /\ exists total_merged total_errors lines,
                 total_merged + total_errors
                 = quiz_total t (semesters_of t)
                 /\ stdout w'
                    = header WS ++ found_lines (semesters_of t) ++ lines
                        ++ summary_lines WS total_merged total_errors (fs w'))).
Proof.
  intros t. destruct (run_once WS es) as (w' & Hrun & _ & Hout).
  exists w'. split; [exact Hrun |].
  destruct Hout as [(Hnone & _ & Hstd) | (Hsome & m & e & lines & Hsum & _ & Hstd)].
  - left. auto.
  - right. split; [exact Hsome |]. exists m, e, lines. auto.
Qed.

Lemma replay_keeps_other_files ws t t' p c :
  Forall out_op ws -> replay ws t = Some t' ->
  (forall d f, p <> OUTPUT_DIR ++ [d] ++ [f]) ->
  FS.lookup t p = Some (File c) ->
  FS.lookup t' p = Some (File c).
Proof.
  intros Ho R Hp Hl. apply (Overwrite.replay_keeps_file ws p c t); auto.
  intros c' Hin. rewrite Forall_forall in Ho. specialize (Ho _ Hin).
  destruct Ho as (d & f & E). now apply (Hp d f).
Qed.

(** C10: what a run changes in the workspace is a sequence of output
    folders [Quizzes/d] made and output files [Quizzes/d/f] written.
    Whatever lies outside the output folder is afterwards what it was;
    every file that is not at the place of an output file keeps its
    content; and what existed before exists afterwards, files as files and
    directories as directories. *)
Theorem main_frame (WS : string) (es : list (string * node)) :
  let t := Dir es in
  let t' := fs (snd (run WS t)) in
  (exists ws, Forall out_op ws /\ replay ws t = Some t')
  /\ (forall x q, x <> "Quizzes" -> FS.lookup t' (x :: q) = FS.lookup t (x :: q))
  /\ (forall p c,
        FS.lookup t p = Some (File c) ->
        (forall d f, p <> OUTPUT_DIR ++ [d] ++ [f]) ->
        FS.lookup t' p = Some (File c))
  /\ (forall p,
        FS.kind_at t p <> FS.KNone ->
        FS.kind_at t' p = FS.kind_at t p).
Proof.
  intros t t'. destruct (run_once WS es) as (w' & Hrun & (ws & Ho & R) & _).
  assert (Ht' : t' = fs w') by (unfold t', t; now rewrite Hrun).
  rewrite Ht'. repeat split.
  - now exists ws.
  - intros x q Hx.
    destruct (TraceFacts.replay_compat _ _ _ Ho R) as (Ha & _).
    symmetry. now apply Ha.
  - intros p c Hl Hp. now apply (replay_keeps_other_files ws t).
  - intros p Hk. now apply (TraceFacts.replay_persist ws t).
Qed.

(** In the sample the parts of quiz 3 are what they were after the run, and
    so is the folder of quiz 2. *)
Lemma main_frame_witness :
  let t' := fs (snd (run "/ws" sample_tree)) in
  FS.lookup t' ["Quizzes-Fall-2022"; "Quiz3"; "Quiz3.1.pdf"]
  = Some (File (Pdf [1]))
  /\ FS.lookup t' ["Quizzes-Fall-2022"; "Quiz2"]
     = FS.lookup sample_tree ["Quizzes-Fall-2022"; "Quiz2"]
  /\ FS.kind_at t' ["Quizzes-Fall-2022"] = FS.KDir.
Proof.
  intros t'.
  destruct (main_frame "/ws"
              [("Quizzes-Fall-2022",
                Dir [("Quiz3", Dir [("Quiz3.1.pdf", File (Pdf [1]));
                                    ("Quiz3.2.pdf", File (Pdf [2]));
                                    ("Quiz3.3.pdf", File (Pdf [3]))]);
                     ("Quiz2", Dir [("Quiz2.1.pdf", File (Pdf [4]));
                                    ("Quiz2.3.pdf", File (Pdf [5]))])])])
    as (_ & Hin & Hfile & Hkind).
  split; [| split].
  - apply (Hfile ["Quizzes-Fall-2022"; "Quiz3"; "Quiz3.1.pdf"] (Pdf [1]));
      [reflexivity | discriminate].
  - apply (Hin "Quizzes-Fall-2022" ["Quiz2"]). discriminate.
  - apply (Hkind ["Quizzes-Fall-2022"]). discriminate.
Defined.

(** ** Running twice *)

Lemma set_entry_new_name x v es :
  FS.assoc x es = None ->
  map fst (FS.set_entry x v es) = map fst es ++ [x].
Proof.
  induction es as [| [y u] es IH]; simpl; [reflexivity |].
  destruct (String.eqb y x); [discriminate |].
  intros H. simpl. now rewrite IH.
Qed.

Lemma assoc_in_names x es : In x (map fst es) -> FS.assoc x es <> None.
Proof.
  induction es as [| [y u] es IH]; simpl; [contradiction |].
  destruct (String.eqb_spec y x) as [-> | Hne]; [discriminate |].
  intros [H | H]; [contradiction | now apply IH].
Qed.

Lemma update_cons_dir mk f es x p :
  FS.update mk f (Some (Dir es)) (x :: p)
  = match FS.update mk f (FS.assoc x es) p with
    | inr c => inr (Dir (FS.set_entry x c es))
    | inl e => inl e
    end.
Proof. reflexivity. Qed.

(** An output change touches the root only at the entry "Quizzes". *)
Lemma apply_op_root o es s' :
  out_op o -> apply_op o (Dir es) = Some s' ->
  exists c, s' = Dir (FS.set_entry "Quizzes" c es).
Proof.
  intros Ho H.
  destruct o as [q | p c]; cbn [out_op apply_op] in Ho, H.
  - destruct Ho as (d & ->). unfold FS.mkdir_parents in H.
    change (OUTPUT_DIR ++ [d]) with ("Quizzes" :: [d]) in H.
    rewrite update_cons_dir in H.
    destruct (FS.update true FS.mkdir_at (FS.assoc "Quizzes" es) [d])
      as [e | n]; [discriminate |].
    inversion H. now exists n.
  - destruct Ho as (d & f & ->). unfold FS.write_file in H.
    change (OUTPUT_DIR ++ [d] ++ [f]) with ("Quizzes" :: [d; f]) in H.
    rewrite update_cons_dir in H.
    destruct (FS.update false (FS.write_at c) (FS.assoc "Quizzes" es) [d; f])
      as [e | n]; [discriminate |].
    inversion H. now exists n.
Qed.

Lemma replay_root ws :
  forall (es0 es : list (string * node)) F,
    Forall out_op ws ->
    (map fst es = map fst es0 \/ map fst es = map fst es0 ++ ["Quizzes"]) ->
    replay ws (Dir es) = Some F ->
    exists es',
      F = Dir es'
      /\ (map fst es' = map fst es0 \/ map fst es' = map fst es0 ++ ["Quizzes"]).
Proof.
  induction ws as [| o ws IH]; intros es0 es F Ho Hn R; simpl in R.
  - inversion R. now exists es.
  - inversion Ho as [| ? ? Ho1 Ho2]; subst.
    destruct (apply_op o (Dir es)) as [s1 |] eqn:H1; [| discriminate].
    destruct (apply_op_root _ _ _ Ho1 H1) as (c & ->).
    apply (IH es0 (FS.set_entry "Quizzes" c es) F Ho2); [| exact R].
    destruct (FS.assoc "Quizzes" es) as [n |] eqn:Ha.
    + rewrite FSFacts.set_entry_names by congruence. exact Hn.
    + rewrite set_entry_new_name by exact Ha.
      destruct Hn as [Hn | Hn]; [right; now rewrite Hn |].
      exfalso. apply (assoc_in_names "Quizzes" es); [| exact Ha].
      rewrite Hn. apply in_or_app. right. now left.
Qed.

Lemma children_root es :
  children (Dir es) [] = map (fun nm => [nm]) (map fst es).
Proof. unfold children. simpl. now rewrite map_map. Qed.

Lemma semester_entries_app t l1 l2 :
  semester_entries t (l1 ++ l2)
  = semester_entries t l1 ++ semester_entries t l2.
Proof. unfold semester_entries. apply flat_map_app. Qed.

(** The output folder is no semester folder, so the semester folders after
    a run are the ones before it. *)
Lemma semesters_of_replay ws es F :
  Forall out_op ws -> replay ws (Dir es) = Some F ->
  (exists es', F = Dir es') /\ semesters_of F = semesters_of (Dir es).
Proof.
  intros Ho R.
  destruct (replay_root ws es es F Ho (or_introl eq_refl) R) as (es' & -> & Hn).
  split; [now exists es' |].
  pose proof (TraceFacts.replay_compat _ _ _ Ho R) as (Ha & _).
  unfold semesters_of. f_equal. rewrite !children_root.
  assert (Hsame : semester_entries (Dir es') (map (fun nm => [nm]) (map fst es))
                  = semester_entries (Dir es) (map (fun nm => [nm]) (map fst es))).
  { symmetry. apply Inputs.semester_entries_agree; [exact Ha |].
    intros item Hin. apply in_map_iff in Hin as (nm & <- & _). now exists nm. }
  destruct Hn as [-> | ->]; [exact Hsame |].
  rewrite map_app, semester_entries_app, Hsame.
  unfold semester_entries at 2. cbn [map flat_map].
  change (FS.name ["Quizzes"]) with "Quizzes".
  replace (parse_semester_folder "Quizzes") with (@None (string * string))
    by (vm_compute; reflexivity).
  destruct (FS.is_dir (Dir es') ["Quizzes"]); now rewrite !app_nil_r.
Qed.

(** C9: a second run from the workspace the first run left recognises the
    same semester folders (the output folder "Quizzes" is none), returns
    as the first did, prints the same lines, so makes the same merges, and
    leaves the file system as the first run left it: every output path
    holds the same pages. *)
Theorem main_twice (WS : string) (es : list (string * node)) :
  let t := Dir es in
  let r1 := run WS t in
  let r2 := run WS (fs (snd r1)) in
  fst r1 = Returned tt
  /\ fst r2 = Returned tt
  /\ parse_semester_folder "Quizzes" = None
  /\ semesters_of (fs (snd r1)) = semesters_of t
  /\ stdout (snd r2) = stdout (snd r1)
  /\ fs (snd r2) = fs (snd r1).
Proof.
  intros t r1 r2.
  destruct (run_once WS es) as (w1 & Hrun & (ws & Ho & R) & Hout).
  fold t in Hrun, R, Hout.
  assert (Hr1 : r1 = (Returned tt, w1)) by exact Hrun.
  destruct (semesters_of_replay ws es (fs w1) Ho R) as ((es' & HF) & Hsem).
  fold t in Hsem.
  assert (Hr2 : r2 = run WS (fs w1)) by (unfold r2; now rewrite Hr1).
  rewrite Hr1. cbn [fst snd].
  split; [reflexivity |].
  cut (r2 = (Returned tt, World (fs w1) (mergers (snd r2)) (stdout w1))).
  { intros ->. cbn [fst snd fs stdout]. repeat split; auto. }
  rewrite Hr2.
  destruct Hout as [(Hnone & Hfs & Hstd) | (Hsome & _)].
  - (* nothing to sweep: the first run changed nothing *)
    unfold run. rewrite (main_eq WS es') by exact HF.
    cbn [fs mergers stdout app]. rewrite Hsem, Hnone, Hstd. reflexivity.
  - pose proof (TraceFacts.replay_compat _ _ _ Ho R) as HT.
    destruct (sweep_twin WS t (fs w1)
                (World t [] (header WS ++ found_lines (semesters_of t)))
                (World (fs w1) [] (header WS ++ found_lines (semesters_of t)))
                HT eq_refl eq_refl)
      as (m & e & lines & w1' & w2' & E1 & E2 & O1 & O2 & Hs & _ & HG).
    (* the first run again, to name its last state *)
    assert (Hw1 : fs w1 = fs w1'
                  /\ stdout w1
                     = stdout w1' ++ summary_lines WS m e (fs w1')).
    { unfold run in Hrun. rewrite (main_eq WS es) in Hrun by reflexivity.
      cbn [fs mergers stdout app] in Hrun. fold t in Hrun.
      destruct (semesters_of t) as [| s0 ss] eqn:Hs0; [now elim Hsome |].
      unfold bind in Hrun. rewrite E1 in Hrun.
      cbn [fst snd] in Hrun. rewrite (summary_eq WS m e w1' HG) in Hrun.
      inversion Hrun. split; reflexivity. }
    destruct Hw1 as [Hfs Hstd].
    (* the second run ends where it started *)
    destruct Hs as (ws' & Ho' & R1 & R2).
    rewrite <- Hfs in R1.
    rewrite (Overwrite.replay_twice _ _ _ R1) in R2.
    inversion R2 as [Hfs2].
    unfold run. rewrite (main_eq WS es') by exact HF.
    cbn [fs mergers stdout app]. rewrite Hsem.
    destruct (semesters_of t) as [| s0 ss] eqn:Hs0; [now elim Hsome |].
    unfold bind. rewrite E2. cbn [fst snd].
    rewrite summary_eq by (rewrite <- Hfs2, Hfs; exact HG).
    rewrite <- Hfs2. f_equal. f_equal.
    rewrite Hstd, O1, O2, <- Hfs. reflexivity.
Qed.
